(** * Telegraf metrics to Grafana frames: the converter of
    [telemetry/telegraf/convert.go], embedded and verified.

    The file follows the Go source function by function.  What the source
    imports from other packages (the influx line-protocol parser, the
    converters and field types of the plugin SDK, [time.Time.String],
    [frameutil.FieldTypeFor]) is gathered in the class [Externals]; every
    theorem about the converter holds for any implementation of it. *)

From Stdlib Require Import ZArith String Ascii PrimFloat Uint63.
From stdpp Require Import base option list strings gmap pretty.

#[local] Set Warnings "-clear-no-such-hyp".

(** ** Go values the converter handles *)

Module time.
(** [time.Time], as the decoder builds it with [time.Unix(0, ns)]: an
    instant counted in nanoseconds. *)
Definition Time : Type := Z.
End time.

Module telegraf.
(** The dynamic value of a field ([interface{}] in [telegraf.Field]).
    Telegraf stores int64, uint64, float64, string and bool; [VNil] is the
    value of no supported type. *)
Inductive Value : Type :=
| VNil
| VInt64 (i : Z)
| VUint64 (u : Z)
| VFloat64 (x : float)
| VString (s : string)
| VBool (b : bool).

Record Field : Type := { Key : string; Value_ : Value }.

(** What [convert.go] observes of a [telegraf.Metric]: the results of
    [Name()], [Time()], [Tags()] and [FieldList()]. *)
Record Metric : Type := {
  Name : string;
  Time : time.Time;
  Tags : gmap string string;
  FieldList : list Field
}.
End telegraf.

Module data.
(** [data.FieldType]: the unknown type, and a plain and a nullable
    (pointer) variant of every element kind. *)
Inductive Kind : Type :=
| Int8 | Int16 | Int32 | Int64
| Uint8 | Uint16 | Uint32 | Uint64
| Float32 | Float64
| String_ | Bool | Time.

Inductive FieldType : Type :=
| FieldTypeUnknown
| Plain (k : Kind)
| Nullable_ (k : Kind).

Abbreviation FieldTypeInt64 := (Plain Int64).
Abbreviation FieldTypeFloat64 := (Plain Float64).
Abbreviation FieldTypeString := (Plain String_).
Abbreviation FieldTypeBool := (Plain Bool).
Abbreviation FieldTypeTime := (Plain Time).
Abbreviation FieldTypeNullableInt64 := (Nullable_ Int64).
Abbreviation FieldTypeNullableFloat64 := (Nullable_ Float64).
Abbreviation FieldTypeNullableString := (Nullable_ String_).
Abbreviation FieldTypeNullableBool := (Nullable_ Bool).

Global Instance Kind_eq_dec : EqDecision Kind.
Proof. solve_decision. Defined.
Global Instance FieldType_eq_dec : EqDecision FieldType.
Proof. solve_decision. Defined.

(** [FieldType.NullableType]; it panics ([None]) on a type it does not
    know. *)
Definition NullableType (p : FieldType) : option FieldType :=
  match p with
  | FieldTypeUnknown => None
  | Plain k | Nullable_ k => Some (Nullable_ k)
  end.

(** [FieldType.Nullable] *)
Definition Nullable (p : FieldType) : bool :=
  match p with Nullable_ _ => true | _ => false end.

(** One element of a field's vector: a value of a plain kind or a pointer
    (nil or set) of a nullable one. *)
Inductive Scalar : Type :=
| SInt (z : Z)
| SFloat (x : float)
| SString (s : string)
| SBool (b : bool)
| STime (t : time.Time).

Inductive Elem : Type :=
| Val (k : Kind) (s : Scalar)
| Ptr (k : Kind) (p : option Scalar).

Definition elemType (e : Elem) : FieldType :=
  match e with Val k _ => Plain k | Ptr k _ => Nullable_ k end.

Definition zeroScalar (k : Kind) : Scalar :=
  match k with
  | Float32 | Float64 => SFloat 0%float
  | String_ => SString ""
  | Bool => SBool false
  | Time => STime 0%Z
  | _ => SInt 0
  end.

(** [data.Field]: a named, labelled, typed vector. *)
Record Field : Type := {
  Name : string;
  Labels : gmap string string;
  Type_ : FieldType;
  vector : list Elem
}.

Definition Len (f : Field) : nat := length (vector f).

(** [data.NewField(name, labels, []time.Time{...})] *)
Definition NewTimeField (name : string) (labels : gmap string string)
    (values : list time.Time) : Field :=
  {| Name := name; Labels := labels; Type_ := FieldTypeTime;
     vector := (λ t, Val Time (STime t)) <$> values |}.

(** [data.NewFieldFromFieldType(p, n)]: [n] zero values of type [p], no
    name, no labels; it panics ([None]) on an unsupported type. *)
Definition NewFieldFromFieldType (p : FieldType) (n : nat) : option Field :=
  match p with
  | FieldTypeUnknown => None
  | Plain k =>
      Some {| Name := ""; Labels := ∅; Type_ := p;
              vector := replicate n (Val k (zeroScalar k)) |}
  | Nullable_ k =>
      Some {| Name := ""; Labels := ∅; Type_ := p;
              vector := replicate n (Ptr k None) |}
  end.

(** [Field.Set(idx, val)]: Go panics ([None]) when [idx] is out of range
    or [val] has not the vector's element type. *)
Definition Set_ (f : Field) (idx : nat) (val : Elem) : option Field :=
  if decide (idx < length (vector f) ∧ elemType val = Type_ f)
  then Some {| Name := Name f; Labels := Labels f; Type_ := Type_ f;
               vector := <[idx := val]> (vector f) |}
  else None.
End data.

(** ** Errors and outcomes *)

(** The errors [Convert] builds with [fmt.Errorf]. *)
Inductive error : Type :=
| ErrParse (cause : string)
    (* "error parsing metrics: %w" *)
| ErrUnknownType (v : telegraf.Value)
    (* "unknown type: %t" *)
| ErrNoConverter (key : string) (v : telegraf.Value) (ft : data.FieldType)
    (* "no converter %s=%v (%T) %s" *)
| ErrValueConvert (cause : string).
    (* "value convert error: %v" *)

(** A Go call that returns an [error]: it returns normally, returns an
    error, or panics. *)
Inductive result (A : Type) : Type :=
| Ok (a : A)
| Err (e : error)
| Panic.
Arguments Ok {A} a.
Arguments Err {A} e.
Arguments Panic {A}.

Definition bind {A B : Type} (r : result A) (k : A → result B) : result B :=
  match r with
  | Ok a => k a
  | Err e => Err e
  | Panic => Panic
  end.

Notation "x ←! r ; k" := (bind r (λ x, k))
  (at level 20, r at level 100, k at level 200, right associativity,
   format "x  ←!  r ;  '/' k").

(** A Go call that may panic but returns no error. *)
Definition orPanic {A : Type} (o : option A) : result A :=
  match o with Some a => Ok a | None => Panic end.

(** ** The imported packages *)

(** The result of a library converter: an error message or the converted
    pointer, nil or set; a converter returns a pointer of its
    [OutputFieldType]. *)
Definition converted (A : Type) : Type := string + option A.

Class Externals : Type := {
  (** the state of the [parsers.Parser] a converter owns *)
  ParserState : Type;
  (** [influx.NewParser(influx.NewMetricHandler())] *)
  NewParser : ParserState;
  (** [Parser.Parse(body)]: the parser's next state and the decoded metrics
      or the decoder's error *)
  Parse : ParserState → list Byte.byte →
          ParserState * (string + list telegraf.Metric);
  (** [time.Time.String] *)
  TimeString : time.Time → string;
  (** [frameutil.FieldTypeFor] *)
  FieldTypeFor : telegraf.Value → data.FieldType;
  (** [converters.AnyToNullableString.Converter] *)
  AnyToNullableString : telegraf.Value → converted string;
  (** [converters.JSONValueToNullableFloat64.Converter] *)
  JSONValueToNullableFloat64 : telegraf.Value → converted float;
  (** [converters.BoolToNullableBool.Converter] *)
  BoolToNullableBool : telegraf.Value → converted bool;
  (** [converters.JSONValueToNullableInt64.Converter] *)
  JSONValueToNullableInt64 : telegraf.Value → converted Z
}.

(** ** [convert.go] *)

(** [type metricFrame struct] *)
Record metricFrame : Type := { key : string; fields : list data.Field }.

(** A [telemetry.FrameWrapper] in the slice [Convert] returns: a pointer to a
    [metricFrame], possibly nil. *)
Definition FrameWrapper : Type := option metricFrame.

(** What a call of [Convert] does: it returns its two results, or panics. *)
Inductive outcome : Type :=
| Returned (frameWrappers : list FrameWrapper) (err : option error)
| Panicked.

(** [data.Frame], as [data.NewFrame(name, fields...)] builds it. *)
Record Frame : Type := { FrameName : string; Fields : list data.Field }.

(** The pointer a library converter returns, as an element of a vector of
    kind [k]. *)
Definition boxed {A : Type} (k : data.Kind) (inj : A → data.Scalar)
    (r : converted A) : string + data.Elem :=
  match r with
  | inl e => inl e
  | inr p => inr (data.Ptr k (inj <$> p))
  end.

Section Converter.
Context `{X : Externals}.

(** [type Converter struct] *)
Record Converter : Type := { parser : ParserState }.

(** [func NewConverter() *Converter] *)
Definition NewConverter : Converter := {| parser := NewParser |}.

(** [func getFrameKey(m telegraf.Metric) string] *)
Definition getFrameKey (m : telegraf.Metric) : string :=
  telegraf.Name m +:+ "_" +:+ TimeString (telegraf.Time m).

(** [func newMetricFrame(m telegraf.Metric) *metricFrame] *)
Definition newMetricFrame (m : telegraf.Metric) : metricFrame :=
  {| key := telegraf.Name m;
     fields := [data.NewTimeField "time" ∅ [telegraf.Time m]] |}.

(** [func (s *metricFrame) Key() string] *)
Definition Key (s : metricFrame) : string := key s.

(** [func (s *metricFrame) Frame() *data.Frame] *)
Definition Frame_ (s : metricFrame) : Frame :=
  {| FrameName := key s; Fields := fields s |}.

(** The body of the loop of [extend], up to [field.Set(0, v)]: the column
    built for field [f] of metric [m]. *)
Definition fieldColumn (m : telegraf.Metric) (f : telegraf.Field)
    : result data.Field :=
  let ft := FieldTypeFor (telegraf.Value_ f) in
  if decide (ft = data.FieldTypeUnknown)
  then Err (ErrUnknownType (telegraf.Value_ f))
  else
    (* Make all fields nullable. *)
    ft ←! orPanic (data.NullableType ft);
    field ←! orPanic (data.NewFieldFromFieldType ft 1);
    let field := {| data.Name := telegraf.Key f;
                    data.Labels := telegraf.Tags m;
                    data.Type_ := data.Type_ field;
                    data.vector := data.vector field |} in
    convert ←!
      match ft with
      | data.FieldTypeNullableString =>
          Ok (λ v, boxed data.String_ data.SString (AnyToNullableString v))
      | data.FieldTypeNullableFloat64 =>
          Ok (λ v, boxed data.Float64 data.SFloat (JSONValueToNullableFloat64 v))
      | data.FieldTypeNullableBool =>
          Ok (λ v, boxed data.Bool data.SBool (BoolToNullableBool v))
      | data.FieldTypeNullableInt64 =>
          Ok (λ v, boxed data.Int64 data.SInt (JSONValueToNullableInt64 v))
      | _ => Err (ErrNoConverter (telegraf.Key f) (telegraf.Value_ f) ft)
      end;
    match convert (telegraf.Value_ f) with
    | inl e => Err (ErrValueConvert e)
    | inr v => orPanic (data.Set_ field 0 v)
    end.

(** The loop of [extend] over [m.FieldList()]: every column is appended to
    the fields accumulated so far; the first error ends it. *)
Fixpoint extendLoop (fields : list data.Field) (m : telegraf.Metric)
    (fl : list telegraf.Field) : result (list data.Field) :=
  match fl with
  | [] => Ok fields
  | f :: fl' =>
      field ←! fieldColumn m f;
      extendLoop (fields ++ [field]) m fl'
  end.

(** [func (s *metricFrame) extend(m telegraf.Metric) error]; the frame is
    mutated in place in Go and returned here.  On an error the caller drops
    the frame, so the partly extended frame is not kept. *)
Definition extend (s : metricFrame) (m : telegraf.Metric)
    : result metricFrame :=
  fields ←! extendLoop (fields s) m (telegraf.FieldList m);
  Ok {| key := key s; fields := fields |}.

(** The two locals of [Convert]: [frameKeyOrder] and [metricFrames]. *)
Record grouping : Type := {
  frameKeyOrder : list string;
  metricFrames : gmap string metricFrame
}.

(** One iteration of [for _, m := range metrics].  The map holds pointers
    and [extend] mutates through them; no other alias of a frame exists, so
    storing the extended frame under its key is the same update. *)
Definition foldMetric (st : grouping) (m : telegraf.Metric) : result grouping :=
  let frameKey := getFrameKey m in
  match metricFrames st !! frameKey with
  | Some frame =>
      (* Existing frame. *)
      frame ←! extend frame m;
      Ok {| frameKeyOrder := frameKeyOrder st;
            metricFrames := <[frameKey := frame]> (metricFrames st) |}
  | None =>
      let order := frameKeyOrder st ++ [frameKey] in
      frame ←! extend (newMetricFrame m) m;
      Ok {| frameKeyOrder := order;
            metricFrames := <[frameKey := frame]> (metricFrames st) |}
  end.

Fixpoint foldMetrics (st : grouping) (metrics : list telegraf.Metric)
    : result grouping :=
  match metrics with
  | [] => Ok st
  | m :: metrics' =>
      st ←! foldMetric st m;
      foldMetrics st metrics'
  end.

(** [Convert] after the parse: the loop over the metrics and the loop over
    [frameKeyOrder] that fills [frameWrappers]. *)
Definition convertMetrics (metrics : list telegraf.Metric) : outcome :=
  match foldMetrics {| frameKeyOrder := []; metricFrames := ∅ |} metrics with
  | Ok st =>
      Returned ((λ key, metricFrames st !! key) <$> frameKeyOrder st) None
  | Err e => Returned [] (Some e)
  | Panic => Panicked
  end.

(** [func (c *Converter) Convert(body []byte) ([]telemetry.FrameWrapper, error)];
    the converter comes back with the parser in its state after the call. *)
Definition Convert (c : Converter) (body : list Byte.byte)
    : Converter * outcome :=
  let '(p, parsed) := Parse (parser c) body in
  ({| parser := p |},
   match parsed with
   | inl err => Returned [] (Some (ErrParse err))
   | inr metrics => convertMetrics metrics
   end).

End Converter.

(** ** A stand-in for the imported packages

    Used to run the converter on concrete batches: the decoder answers every
    batch with [decoded]; a time prints as its nanoseconds in decimal; values
    have the field type of their dynamic type; each converter passes its own
    type through, the float converter takes integers too. *)

Definition float64OfInt64 (i : Z) : float :=
  if decide (i = -9223372036854775808)%Z then (-9223372036854775808)%float
  else if decide (i < 0)%Z then PrimFloat.opp (of_uint63 (Uint63.of_Z (- i)))
  else of_uint63 (Uint63.of_Z i).

Definition testFieldTypeFor (v : telegraf.Value) : data.FieldType :=
  match v with
  | telegraf.VNil => data.FieldTypeUnknown
  | telegraf.VInt64 _ => data.FieldTypeInt64
  | telegraf.VUint64 _ => data.Plain data.Uint64
  | telegraf.VFloat64 _ => data.FieldTypeFloat64
  | telegraf.VString _ => data.FieldTypeString
  | telegraf.VBool _ => data.FieldTypeBool
  end.

Definition testToString (v : telegraf.Value) : converted string :=
  match v with
  | telegraf.VNil => inr None
  | telegraf.VString s => inr (Some s)
  | _ => inl "not a string"
  end.

Definition testToFloat64 (v : telegraf.Value) : converted float :=
  match v with
  | telegraf.VNil => inr None
  | telegraf.VFloat64 x => inr (Some x)
  | telegraf.VInt64 i => inr (Some (float64OfInt64 i))
  | _ => inl "not a float64"
  end.

Definition testToBool (v : telegraf.Value) : converted bool :=
  match v with
  | telegraf.VNil => inr None
  | telegraf.VBool b => inr (Some b)
  | _ => inl "not a bool"
  end.

Definition testToInt64 (v : telegraf.Value) : converted Z :=
  match v with
  | telegraf.VNil => inr None
  | telegraf.VInt64 i => inr (Some i)
  | _ => inl "not an int64"
  end.

Definition testExternals (decoded : string + list telegraf.Metric)
    : Externals :=
  {| ParserState := nat;
     NewParser := 0;
     Parse := λ calls _, (S calls, decoded);
     TimeString := λ t, pretty (t : Z);
     FieldTypeFor := testFieldTypeFor;
     AnyToNullableString := testToString;
     JSONValueToNullableFloat64 := testToFloat64;
     BoolToNullableBool := testToBool;
     JSONValueToNullableInt64 := testToInt64 |}.

(** ** Vocabulary of the statements *)

(** The distinct elements of a list, in the order of their first
    occurrence. *)
Fixpoint firstSeen `{EqDecision A} (l : list A) : list A :=
  match l with
  | [] => []
  | x :: l' => x :: filter (λ y, y ≠ x) (firstSeen l')
  end.

(** Whether the character [c] occurs in [s]. *)
Fixpoint occurs (c : ascii) (s : string) : bool :=
  match s with
  | EmptyString => false
  | String a s' => bool_decide (a = c) || occurs c s'
  end.

(** The error of a batch is one of [extend], not one of the decoder. *)
Definition isConversionError (e : error) : bool :=
  match e with ErrParse _ => false | _ => true end.

Section Tables.
Context `{X : Externals}.

(** The columns of all the fields of a list, in order; the first failure
    wins. *)
Fixpoint columns (m : telegraf.Metric) (fl : list telegraf.Field)
    : result (list data.Field) :=
  match fl with
  | [] => Ok []
  | f :: fl' =>
      c ←! fieldColumn m f;
      cs ←! columns m fl';
      Ok (c :: cs)
  end.

Definition metricColumns (m : telegraf.Metric) : result (list data.Field) :=
  columns m (telegraf.FieldList m).

(** The columns of every metric of a batch; the first failure wins. *)
Fixpoint batchColumns (ms : list telegraf.Metric)
    : result (list (list data.Field)) :=
  match ms with
  | [] => Ok []
  | m :: ms' =>
      cs ←! metricColumns m;
      css ←! batchColumns ms';
      Ok (cs :: css)
  end.

(** The columns of a metric, none when one of its fields fails. *)
Definition columnsOf (m : telegraf.Metric) : list data.Field :=
  match metricColumns m with Ok cs => cs | _ => [] end.

(** The metrics of a batch that have frame key [k]. *)
Definition keyed (k : string) (ms : list telegraf.Metric)
    : list telegraf.Metric :=
  filter (λ m, getFrameKey m = k) ms.

(** The table of the metrics [group]: named after the first of them, its
    time first, then the columns of each metric in turn. *)
Definition tableOf (group : list telegraf.Metric) : FrameWrapper :=
  match group with
  | [] => None
  | m :: _ => Some {| key := telegraf.Name m;
                      fields := data.NewTimeField "time" ∅ [telegraf.Time m]
                                :: mjoin (columnsOf <$> group) |}
  end.

(** The metrics of a batch of name [n] and time [t]. *)
Definition recorded (nt : string * time.Time) (ms : list telegraf.Metric)
    : list telegraf.Metric :=
  filter (λ m, telegraf.Name m = nt.1 ∧ telegraf.Time m = nt.2) ms.

(** The frame key a table was stored under, read back from its name and the
    value of its first column. *)
Definition frameKeyOf (s : metricFrame) : string :=
  match fields s with
  | {| data.vector := data.Val _ (data.STime t) :: _ |} :: _ =>
      key s +:+ "_" +:+ TimeString t
  | _ => key s
  end.

(** The tables of a batch whose fields all convert: one for each frame key,
    in the order of first occurrence. *)
Definition tablesOf (ms : list telegraf.Metric) : list FrameWrapper :=
  (λ k, tableOf (keyed k ms)) <$> firstSeen (getFrameKey <$> ms).

(** The loop invariant of [Convert]: after the metrics [pre],
    [frameKeyOrder] lists their frame keys in the order of first occurrence
    and [metricFrames] maps every key to the table of the metrics that have
    it. *)
Definition represents (pre : list telegraf.Metric) (st : grouping) : Prop :=
  frameKeyOrder st = firstSeen (getFrameKey <$> pre) ∧
  ∀ k, metricFrames st !! k = tableOf (keyed k pre).

End Tables.

(** ** The options of the converter

    [convert.go] has no options.  The tests of the package construct the
    converter with [WithFloatNumbers] and [WithUseLabelsColumn]; the code of
    the two options is modelled here from the specification. *)

(** Modelled from the spec: the configuration of section 4.1, "all
    independently togglable, defaults both false"; the code of the options
    is missing. *)
Record Options : Type := { useLabelsColumn : bool; floatNumbers : bool }.

(** Modelled from the spec: "defaults both false". *)
Definition defaultOptions : Options :=
  {| useLabelsColumn := false; floatNumbers := false |}.

(** Modelled from the spec: the kinds of which "the type is integer". *)
Definition isInteger (k : data.Kind) : bool :=
  match k with
  | data.Int8 | data.Int16 | data.Int32 | data.Int64
  | data.Uint8 | data.Uint16 | data.Uint32 | data.Uint64 => true
  | _ => false
  end.

(** Modelled from the spec: the target type under [floatNumbers], whose code
    is missing: "If floatNumbers is enabled and the type is integer, instead
    target nullable-float64." *)
Definition floatTarget (ft : data.FieldType) : data.FieldType :=
  match ft with
  | data.FieldTypeUnknown => data.FieldTypeUnknown
  | data.Plain k | data.Nullable_ k =>
      if isInteger k then data.FieldTypeNullableFloat64 else ft
  end.

(** Modelled from the spec: the fold under [floatNumbers], whose code is
    missing.  The fold is the one of [extend] with the target type of
    [floatTarget]; the column is built of that type and the value converted
    by the converter fixed for it. *)
Definition withFloatNumbers (X : Externals) : Externals :=
  {| ParserState := @ParserState X;
     NewParser := @NewParser X;
     Parse := @Parse X;
     TimeString := @TimeString X;
     FieldTypeFor := λ v, floatTarget (@FieldTypeFor X v);
     AnyToNullableString := @AnyToNullableString X;
     JSONValueToNullableFloat64 := @JSONValueToNullableFloat64 X;
     BoolToNullableBool := @BoolToNullableBool X;
     JSONValueToNullableInt64 := @JSONValueToNullableInt64 X |}.

(** Modelled from the spec: the fold in use, by the value of
    [floatNumbers]. *)
Definition typing (X : Externals) (floatNumbers : bool) : Externals :=
  if floatNumbers then withFloatNumbers X else X.

(** *** Wide mode *)

(** Modelled from the spec: the table in progress of wide mode ("all records
    sharing a metric name are merged into one table", "each row representing
    one original record"), whose code is missing: the name, the records
    folded so far, one for each row, and the field columns. *)
Record wideTable : Type := {
  wideName : string;
  wideRows : list telegraf.Metric;
  wideColumns : list data.Field
}.

(** Modelled from the spec: the null of a column type ("a per-row absent
    value"). *)
Definition nullOf (ft : data.FieldType) : data.Elem :=
  match ft with
  | data.Nullable_ k => data.Ptr k None
  | data.Plain k => data.Val k (data.zeroScalar k)
  | data.FieldTypeUnknown => data.Ptr data.String_ None
  end.

(** Modelled from the spec: "a field absent in some records within the same
    table must be representable as null": a new row is null in every column
    until a field sets it. *)
Definition padRow (col : data.Field) : data.Field :=
  {| data.Name := data.Name col; data.Labels := data.Labels col;
     data.Type_ := data.Type_ col;
     data.vector := data.vector col ++ [nullOf (data.Type_ col)] |}.

(** Modelled from the spec: "Construct or extend a column of exactly the
    target type", with the type-unification conflict policy: the one-row
    column [col] of a field is stored in row [n] of the column of its name,
    or in a new column, null in the rows before; a column of its name and
    another type is the fatal conflict ([None]). *)
Fixpoint wideSet (cols : list data.Field) (n : nat) (col : data.Field)
    : option (list data.Field) :=
  match cols with
  | [] =>
      Some [ {| data.Name := data.Name col; data.Labels := ∅;
                data.Type_ := data.Type_ col;
                data.vector := replicate n (nullOf (data.Type_ col))
                               ++ data.vector col |} ]
  | c :: cols' =>
      if decide (data.Name c = data.Name col) then
        if decide (data.Type_ c = data.Type_ col) then
          Some ({| data.Name := data.Name c; data.Labels := data.Labels c;
                   data.Type_ := data.Type_ c;
                   data.vector := take n (data.vector c) ++ data.vector col |}
                :: cols')
        else None
      else (c ::.) <$> wideSet cols' n col
  end.

(** Modelled from the spec: the labels column of wide mode holds "each row's
    original tag set"; it is written [k=v], comma separated. *)
Definition renderTags (tags : gmap string string) : string :=
  foldr (λ kv s, kv.1 +:+ "=" +:+ kv.2 +:+ "," +:+ s) "" (map_to_list tags).

(** Modelled from the spec: "each distinct tag key seen across every row". *)
Definition tagKeys (rows : list telegraf.Metric) : list string :=
  elements (⋃ ((λ m, dom (telegraf.Tags m)) <$> rows) : gset string).

(** Modelled from the spec: the post-pass of wide mode (step 6), whose code
    is missing: the time column first, the synthetic labels column, one
    column "for each distinct tag key seen across every row (filling null
    for rows lacking that tag)", then the field columns. *)
Definition finishWide (t : wideTable) : metricFrame :=
  {| key := wideName t;
     fields :=
       data.NewTimeField "time" ∅ (telegraf.Time <$> wideRows t)
       :: {| data.Name := "labels"; data.Labels := ∅;
             data.Type_ := data.FieldTypeNullableString;
             data.vector :=
               (λ m, data.Ptr data.String_
                       (Some (data.SString (renderTags (telegraf.Tags m)))))
               <$> wideRows t |}
       :: ((λ k, {| data.Name := k; data.Labels := ∅;
                    data.Type_ := data.FieldTypeNullableString;
                    data.vector :=
                      (λ m, data.Ptr data.String_
                              (data.SString <$> telegraf.Tags m !! k))
                      <$> wideRows t |})
           <$> tagKeys (wideRows t))
       ++ wideColumns t |}.

(** Modelled from the spec: "a mapping from GroupKey to an in-progress
    OutputTable, and a separate ordered list of keys in first-seen order". *)
Record wideFrames : Type := {
  wideOrder : list string;
  wideTables : gmap string wideTable
}.

Section Options.
Context `{X : Externals}.

(** Modelled from the spec: the fold of one record into a wide table (steps
    4 and 5), whose code is missing: the record is a new row; each of its
    fields is converted as in the fold of [extend] and stored in that row.
    A failed conversion is an error, a type conflict is fatal. *)
Fixpoint wideFields (cols : list data.Field) (n : nat) (m : telegraf.Metric)
    (fl : list telegraf.Field) : result (list data.Field) :=
  match fl with
  | [] => Ok cols
  | f :: fl' =>
      col ←! fieldColumn m f;
      cols ←! orPanic (wideSet cols n col);
      wideFields cols n m fl'
  end.

(** Modelled from the spec: the fold of one record, "extending row count
    in wide mode". *)
Definition extendWide (t : wideTable) (m : telegraf.Metric)
    : result wideTable :=
  cols ←! wideFields (padRow <$> wideColumns t) (length (wideRows t)) m
                     (telegraf.FieldList m);
  Ok {| wideName := wideName t; wideRows := wideRows t ++ [m];
        wideColumns := cols |}.

(** Modelled from the spec: steps 2 to 4 in wide mode, whose code is
    missing: the group key is the name only; the keys are kept in first-seen
    order beside the mapping from key to table. *)
Definition foldWide (st : wideFrames) (m : telegraf.Metric)
    : result wideFrames :=
  let k := telegraf.Name m in
  match wideTables st !! k with
  | Some t =>
      t ←! extendWide t m;
      Ok {| wideOrder := wideOrder st;
            wideTables := <[k := t]> (wideTables st) |}
  | None =>
      t ←! extendWide {| wideName := k; wideRows := []; wideColumns := [] |} m;
      Ok {| wideOrder := wideOrder st ++ [k];
            wideTables := <[k := t]> (wideTables st) |}
  end.

(** Modelled from the spec: "Iterate the decoded records in original
    order"; the first failure ends the batch. *)
Fixpoint foldWides (st : wideFrames) (ms : list telegraf.Metric)
    : result wideFrames :=
  match ms with
  | [] => Ok st
  | m :: ms' =>
      st ←! foldWide st m;
      foldWides st ms'
  end.

(** Modelled from the spec: [Convert] after the parse in wide mode (steps 2
    to 7), whose code is missing. *)
Definition convertWide (ms : list telegraf.Metric) : outcome :=
  match foldWides {| wideOrder := []; wideTables := ∅ |} ms with
  | Ok st =>
      Returned ((λ k, finishWide <$> wideTables st !! k) <$> wideOrder st)
               None
  | Err e => Returned [] (Some e)
  | Panic => Panicked
  end.

End Options.

(** Modelled from the spec: [Convert] of a converter constructed with
    options, whose code is missing: the parse of step 1, then wide mode
    under [useLabelsColumn] and the loop of [Convert] otherwise, with the
    target types of [floatNumbers]. *)
Definition ConvertWith `{X : Externals} (o : Options) (c : Converter)
    (body : list Byte.byte) : Converter * outcome :=
  let '(p, parsed) := Parse (parser c) body in
  ({| parser := p |},
   match parsed with
   | inl err => Returned [] (Some (ErrParse err))
   | inr metrics =>
       if useLabelsColumn o
       then @convertWide (typing X (floatNumbers o)) metrics
       else @convertMetrics (typing X (floatNumbers o)) metrics
   end).

(** ** Sample batches *)

Definition field (k : string) (v : telegraf.Value) : telegraf.Field :=
  {| telegraf.Key := k; telegraf.Value_ := v |}.

Definition metric (name : string) (t : Z) (tags : list (string * string))
    (fl : list telegraf.Field) : telegraf.Metric :=
  {| telegraf.Name := name; telegraf.Time := t;
     telegraf.Tags := list_to_map tags; telegraf.FieldList := fl |}.

(** [temp,host=a x=3i 1000], [temp,host=a x=4.5 1000] and
    [temp,host=a x=5.5 2000] *)
Definition tempInt : telegraf.Metric :=
  metric "temp" 1000 [("host", "a")] [field "x" (telegraf.VInt64 3)].
Definition tempFloat : telegraf.Metric :=
  metric "temp" 1000 [("host", "a")] [field "x" (telegraf.VFloat64 4.5)].
Definition tempLater : telegraf.Metric :=
  metric "temp" 2000 [("host", "a")] [field "x" (telegraf.VFloat64 5.5)].

(** [cpu,cpu=cpu0 usage_idle=99.5 1000] and [cpu,cpu=cpu1 usage_idle=98.25 1000] *)
Definition cpu0 : telegraf.Metric :=
  metric "cpu" 1000 [("cpu", "cpu0")]
         [field "usage_idle" (telegraf.VFloat64 99.5)].
Definition cpu1 : telegraf.Metric :=
  metric "cpu" 1000 [("cpu", "cpu1")]
         [field "usage_idle" (telegraf.VFloat64 98.25)].

(** [m a=1i,b=2i 1000] and the same record written [m b=2i,a=1i 1000] *)
Definition fieldsAB : telegraf.Metric :=
  metric "m" 1000 [] [field "a" (telegraf.VInt64 1);
                      field "b" (telegraf.VInt64 2)].
Definition fieldsBA : telegraf.Metric :=
  metric "m" 1000 [] [field "b" (telegraf.VInt64 2);
                      field "a" (telegraf.VInt64 1)].

(** [disk used=10u 1000]: an unsigned value, for which [extend] has no
    converter *)
Definition diskUnsigned : telegraf.Metric :=
  metric "disk" 1000 [] [field "used" (telegraf.VUint64 10)].

(** The columns the samples are expected to give. *)
Definition timeColumn (t : Z) : data.Field := data.NewTimeField "time" ∅ [t].

Definition column (name : string) (tags : list (string * string))
    (k : data.Kind) (v : data.Scalar) : data.Field :=
  {| data.Name := name; data.Labels := list_to_map tags;
     data.Type_ := data.Nullable_ k; data.vector := [data.Ptr k (Some v)] |}.

(** The table of [tempInt; tempFloat] in the default configuration: the
    integer and the float value of [x] side by side. *)
Definition tempTable : metricFrame :=
  {| key := "temp";
     fields := [timeColumn 1000;
                column "x" [("host", "a")] data.Int64 (data.SInt 3);
                column "x" [("host", "a")] data.Float64 (data.SFloat 4.5)] |}.

(** The table of [tempInt; tempFloat] under [floatNumbers]. *)
Definition tempFloatTable : metricFrame :=
  {| key := "temp";
     fields := [timeColumn 1000;
                column "x" [("host", "a")] data.Float64 (data.SFloat 3);
                column "x" [("host", "a")] data.Float64 (data.SFloat 4.5)] |}.

(** The table of [tempLater]. *)
Definition tempLaterTable : metricFrame :=
  {| key := "temp";
     fields := [timeColumn 2000;
                column "x" [("host", "a")] data.Float64 (data.SFloat 5.5)] |}.

(** The table of [cpu0; cpu1]: two columns of one name. *)
Definition cpuTable : metricFrame :=
  {| key := "cpu";
     fields := [timeColumn 1000;
                column "usage_idle" [("cpu", "cpu0")] data.Float64
                       (data.SFloat 99.5);
                column "usage_idle" [("cpu", "cpu1")] data.Float64
                       (data.SFloat 98.25)] |}.

(** The tables of [fieldsAB] and of [fieldsBA]. *)
Definition tableAB : metricFrame :=
  {| key := "m";
     fields := [timeColumn 1000;
                column "a" [] data.Int64 (data.SInt 1);
                column "b" [] data.Int64 (data.SInt 2)] |}.
Definition tableBA : metricFrame :=
  {| key := "m";
     fields := [timeColumn 1000;
                column "b" [] data.Int64 (data.SInt 2);
                column "a" [] data.Int64 (data.SInt 1)] |}.

(** The stand-in whose decoder answers with the metrics [ms], and a run of
    [Convert] on it. *)
Definition decoding (ms : list telegraf.Metric) : Externals :=
  testExternals (inr ms).

Definition run (ms : list telegraf.Metric) : outcome :=
  (@Convert (decoding ms) NewConverter []).2.

Definition runWith (o : Options) (ms : list telegraf.Metric) : outcome :=
  (@ConvertWith (decoding ms) o NewConverter []).2.





(** ** First occurrences *)

Section FirstSeen.
Context `{EqDecision A}.
Implicit Types l : list A.

Lemma firstSeen_elem_of l x : x ∈ firstSeen l ↔ x ∈ l.
Proof.
  induction l as [|a l IH]; simpl; [done|].
  rewrite !elem_of_cons, list_elem_of_filter, IH.
  destruct (decide (x = a)); naive_solver.
Qed.

Lemma firstSeen_NoDup l : NoDup (firstSeen l).
Proof.
  induction l as [|a l IH]; simpl; [constructor|].
  constructor; [|by apply NoDup_filter].
  rewrite list_elem_of_filter. naive_solver.
Qed.

Lemma firstSeen_snoc l x :
  firstSeen (l ++ [x]) = if decide (x ∈ l) then firstSeen l
                         else firstSeen l ++ [x].
Proof.
  induction l as [|a l IH]; simpl; [done|].
  rewrite IH. destruct (decide (x ∈ l)) as [Hin|Hin].
  - rewrite decide_True by (by right). done.
  - rewrite filter_app. simpl. destruct (decide (x = a)) as [->|Hne].
    + rewrite decide_True by (by left).
      rewrite filter_cons_False by naive_solver. simpl.
      by rewrite app_nil_r.
    + rewrite decide_False by (rewrite elem_of_cons; naive_solver).
      by rewrite filter_cons_True by done.
Qed.

Lemma firstSeen_fmap `{EqDecision B} (g : A → B) l :
  Inj (=) (=) g → firstSeen (g <$> l) = g <$> firstSeen l.
Proof.
  intros Hg. induction l as [|a l IH]; csimpl; [done|].
  f_equal. rewrite IH. clear IH.
  induction (firstSeen l) as [|b l' IH]; csimpl; [done|].
  destruct (decide (b = a)) as [->|Hne].
  - rewrite !filter_cons_False by naive_solver. done.
  - rewrite !filter_cons_True by naive_solver. csimpl. by rewrite IH.
Qed.

End FirstSeen.

(** ** Frame keys as strings *)

Lemma occurs_app c s1 s2 : occurs c (s1 +:+ String c s2) = true.
Proof.
  induction s1 as [|a s1 IH]; simpl.
  - rewrite bool_decide_eq_true_2; done.
  - unfold String.app in *. simpl. rewrite IH. by rewrite orb_true_r.
Qed.

(** A name and a text without underscore can be read back from their join
    with an underscore: the text starts after the last one. *)
Lemma separator_inj n1 s1 n2 s2 :
  occurs "_" s1 = false → occurs "_" s2 = false →
  n1 +:+ "_" +:+ s1 = n2 +:+ "_" +:+ s2 → n1 = n2 ∧ s1 = s2.
Proof.
  intros H1 H2. revert n2.
  induction n1 as [|a n1 IH]; intros [|b n2]; unfold String.app; simpl.
  - by intros [= ->].
  - intros [= <- ->]. pose proof (occurs_app "_" n2 s2) as Ho.
    unfold String.app in Ho. simpl in Ho. congruence.
  - intros [= -> <-]. pose proof (occurs_app "_" n1 s1) as Ho.
    unfold String.app in Ho. simpl in Ho. congruence.
  - intros [= -> Heq]. destruct (IH n2 Heq) as [-> ->]. done.
Qed.

Lemma occurs_pretty_N_go (x : N) (s : string) :
  occurs "_" s = false → occurs "_" (pretty_N_go x s) = false.
Proof.
  revert s. induction (N.lt_wf_0 x) as [x _ IH]; intros s Hs.
  assert (x = 0 ∨ 0 < x)%N as [->|Hx] by lia.
  - by rewrite pretty_N_go_0.
  - rewrite pretty_N_go_step by done. apply IH.
    { by apply N.div_lt. }
    simpl. rewrite Hs. unfold pretty_N_char. by repeat case_match.
Qed.

Lemma occurs_pretty_Z (z : Z) : occurs "_" (pretty z) = false.
Proof.
  assert (∀ n : N, occurs "_" (pretty n) = false) as HN.
  { intros n. unfold pretty, pretty_N. case_decide; [done|].
    by apply occurs_pretty_N_go. }
  destruct z as [|q|q]; [done|apply HN|].
  unfold pretty, pretty_Z. unfold String.app. simpl. apply HN.
Qed.

(** ** The loops of [extend] and [Convert] *)

Section Loops.
Context `{X : Externals}.
Implicit Types (m : telegraf.Metric) (f : telegraf.Field) (st : grouping).
Implicit Types (ms : list telegraf.Metric).

(** What a successful [fieldColumn] built. *)
Lemma fieldColumn_inv m f col :
  fieldColumn m f = Ok col →
  ∃ k p,
    data.NullableType (FieldTypeFor (telegraf.Value_ f))
      = Some (data.Nullable_ k) ∧
    k ∈ [data.String_; data.Float64; data.Bool; data.Int64] ∧
    col = {| data.Name := telegraf.Key f; data.Labels := telegraf.Tags m;
             data.Type_ := data.Nullable_ k; data.vector := [data.Ptr k p] |}.
Proof.
  unfold fieldColumn. case_decide as Hu; [done|].
  destruct (FieldTypeFor (telegraf.Value_ f)) as [|k|k]; [done|..];
    destruct k; simpl; try done;
    match goal with
    | |- context [boxed _ _ ?r] => destruct r as [e|p]; simpl; [done|]
    end;
    intros [= <-]; eexists _, _; (split; [done|]);
    (split; [set_solver|done]).
Qed.

(** The library calls of [fieldColumn] are made within their domain: none
    panics. *)
Lemma fieldColumn_no_panic m f : fieldColumn m f ≠ Panic.
Proof.
  unfold fieldColumn. case_decide as Hu; [done|].
  destruct (FieldTypeFor (telegraf.Value_ f)) as [|k|k]; [done|..];
    destruct k; simpl; try done;
    match goal with
    | |- context [boxed _ _ ?r] => by destruct r
    end.
Qed.

Lemma columns_no_panic m fl : columns m fl ≠ Panic.
Proof.
  induction fl as [|f fl IH]; simpl; [done|].
  pose proof (fieldColumn_no_panic m f).
  destruct (fieldColumn m f); simpl; [|done..].
  destruct (columns m fl); done.
Qed.

Lemma batchColumns_no_panic ms : batchColumns ms ≠ Panic.
Proof.
  induction ms as [|m ms IH]; simpl; [done|].
  pose proof (columns_no_panic m (telegraf.FieldList m)).
  unfold metricColumns.
  destruct (columns m _); simpl; [|done..].
  destruct (batchColumns ms); done.
Qed.

Lemma extendLoop_columns fs m fl :
  extendLoop fs m fl = (cs ←! columns m fl; Ok (fs ++ cs)).
Proof.
  revert fs. induction fl as [|f fl IH]; intros fs; simpl.
  - by rewrite app_nil_r.
  - destruct (fieldColumn m f) as [c| |]; simpl; [|done..].
    rewrite IH. destruct (columns m fl); simpl; [|done..].
    by rewrite <-app_assoc.
Qed.

Lemma extend_columns (s : metricFrame) m :
  extend s m
  = (cs ←! metricColumns m; Ok {| key := key s; fields := fields s ++ cs |}).
Proof.
  unfold extend, metricColumns. rewrite extendLoop_columns.
  by destruct (columns m _).
Qed.

(** *** The loop invariant of [Convert] *)

Lemma keyed_snoc k pre m :
  keyed k (pre ++ [m])
  = keyed k pre ++ (if decide (getFrameKey m = k) then [m] else []).
Proof.
  unfold keyed. by rewrite filter_app.
Qed.

Lemma keyed_nil_iff k ms : keyed k ms = [] ↔ k ∉ getFrameKey <$> ms.
Proof.
  unfold keyed. split.
  - intros Hnil (m & -> & Hin)%list_elem_of_fmap.
    by eapply (filter_nil_not_elem_of _ _ m Hnil).
  - intros Hn. apply elem_of_nil_inv.
    intros m [Hk Hin]%list_elem_of_filter.
    apply Hn, list_elem_of_fmap; eauto.
Qed.

Lemma keyed_elem_of k ms m : m ∈ keyed k ms ↔ getFrameKey m = k ∧ m ∈ ms.
Proof. unfold keyed. by rewrite list_elem_of_filter. Qed.

Lemma tableOf_snoc (group : list telegraf.Metric) m0 m cs :
  metricColumns m = Ok cs →
  tableOf ((m0 :: group) ++ [m])
  = (λ s, {| key := key s; fields := fields s ++ cs |})
    <$> tableOf (m0 :: group).
Proof.
  intros Hcs. simpl. do 2 f_equal.
  rewrite fmap_app, join_app. simpl.
  unfold columnsOf at 3. rewrite Hcs, app_nil_r.
  by rewrite <-app_assoc.
Qed.

Lemma represents_nil : represents [] {| frameKeyOrder := []; metricFrames := ∅ |}.
Proof. split; [done|]. intros k. simpl. apply lookup_empty. Qed.

Lemma foldMetric_ok pre st m cs :
  represents pre st → metricColumns m = Ok cs →
  ∃ st', foldMetric st m = Ok st' ∧ represents (pre ++ [m]) st'.
Proof.
  intros [Horder Hmap] Hcs. unfold foldMetric.
  rewrite Hmap. destruct (keyed (getFrameKey m) pre) as [|m0 group] eqn:Hk.
  - (* a new frame key *)
    simpl. rewrite extend_columns, Hcs. simpl.
    eexists; split; [done|]. split; simpl.
    + rewrite fmap_app. csimpl. rewrite firstSeen_snoc, Horder.
      apply keyed_nil_iff in Hk. by rewrite decide_False.
    + intros k. rewrite keyed_snoc.
      destruct (decide (getFrameKey m = k)) as [<-|Hne].
      * rewrite lookup_insert_eq, Hk. simpl.
        unfold columnsOf. by rewrite Hcs, app_nil_r.
      * rewrite lookup_insert_ne, app_nil_r by done. apply Hmap.
  - (* an existing frame *)
    simpl. rewrite extend_columns, Hcs. simpl.
    eexists; split; [done|]. split; simpl.
    + rewrite fmap_app. csimpl. rewrite firstSeen_snoc, Horder.
      rewrite decide_True; [done|].
      destruct (decide (getFrameKey m ∈ getFrameKey <$> pre)) as [|Hn];
        [done|].
      apply keyed_nil_iff in Hn. by rewrite Hn in Hk.
    + intros k. rewrite keyed_snoc.
      destruct (decide (getFrameKey m = k)) as [<-|Hne].
      * rewrite lookup_insert_eq, Hk.
        by rewrite (tableOf_snoc _ _ _ cs).
      * rewrite lookup_insert_ne, app_nil_r by done. apply Hmap.
Qed.

Lemma foldMetric_fails st m :
  match metricColumns m with
  | Ok _ => True
  | Err e => foldMetric st m = Err e
  | Panic => foldMetric st m = Panic
  end.
Proof.
  unfold foldMetric.
  destruct (metricColumns m) eqn:Hcs; [done|..];
    destruct (metricFrames st !! getFrameKey m);
    by rewrite extend_columns, Hcs.
Qed.

Lemma foldMetrics_columns pre st ms :
  represents pre st →
  match batchColumns ms with
  | Ok _ => ∃ st', foldMetrics st ms = Ok st' ∧ represents (pre ++ ms) st'
  | Err e => foldMetrics st ms = Err e
  | Panic => foldMetrics st ms = Panic
  end.
Proof.
  revert pre st. induction ms as [|m ms IH]; intros pre st Hst; simpl.
  - rewrite app_nil_r. eauto.
  - pose proof (foldMetric_fails st m) as Hfail.
    destruct (metricColumns m) as [cs| |] eqn:Hcs; simpl;
      [|by rewrite Hfail..].
    destruct (foldMetric_ok pre st m cs Hst Hcs) as (st' & -> & Hst').
    simpl. specialize (IH _ _ Hst').
    destruct (batchColumns ms); simpl; [|done..].
    by rewrite <-app_assoc in IH.
Qed.

(** [Convert] after the parse, in closed form. *)
Lemma convertMetrics_tables ms :
  convertMetrics ms
  = match batchColumns ms with
    | Ok _ => Returned (tablesOf ms) None
    | Err e => Returned [] (Some e)
    | Panic => Panicked
    end.
Proof.
  unfold convertMetrics.
  pose proof (foldMetrics_columns [] _ ms represents_nil) as H.
  destruct (batchColumns ms); [|by rewrite H..].
  destruct H as (st & -> & Horder & Hmap). simpl in *.
  unfold tablesOf. rewrite Horder. f_equal.
  apply list_fmap_ext. intros _ k _. apply Hmap.
Qed.

(** *** Which field a column comes from *)

Lemma columns_Forall2 m fl cs :
  columns m fl = Ok cs → Forall2 (λ f c, fieldColumn m f = Ok c) fl cs.
Proof.
  revert cs. induction fl as [|f fl IH]; intros cs; simpl.
  - intros [= <-]. constructor.
  - destruct (fieldColumn m f) as [c| |] eqn:Hc; simpl; [|done..].
    destruct (columns m fl) as [cs'| |]; simpl; [|done..].
    intros [= <-]. constructor; auto.
Qed.

Lemma columns_err m fl e :
  columns m fl = Err e → ∃ f, f ∈ fl ∧ fieldColumn m f = Err e.
Proof.
  induction fl as [|f fl IH]; simpl; [done|].
  destruct (fieldColumn m f) as [c|e'|] eqn:Hc; simpl; [| |done].
  - destruct (columns m fl) as [cs'| |]; simpl; [done| |done].
    intros [= <-]. destruct IH as (f' & ? & ?); [done|].
    exists f'. split; [by right|done].
  - intros [= <-]. exists f. split; [by left|done].
Qed.

Lemma batchColumns_ok ms css m :
  batchColumns ms = Ok css → m ∈ ms → ∃ cs, metricColumns m = Ok cs.
Proof.
  revert css. induction ms as [|m' ms IH]; intros css; simpl.
  - by intros _ ?%elem_of_nil.
  - destruct (metricColumns m') as [cs| |] eqn:Hcs; simpl; [|done..].
    destruct (batchColumns ms) as [css'| |]; simpl; [|done..].
    intros _ [->|Hin]%elem_of_cons; eauto.
Qed.

Lemma batchColumns_err ms e :
  batchColumns ms = Err e →
  ∃ m f, m ∈ ms ∧ f ∈ telegraf.FieldList m ∧ fieldColumn m f = Err e.
Proof.
  induction ms as [|m ms IH]; simpl; [done|].
  destruct (metricColumns m) as [cs|e'|] eqn:Hcs; simpl; [| |done].
  - destruct (batchColumns ms) as [css'| |]; simpl; [done| |done].
    intros [= <-]. destruct IH as (m' & f & ? & ? & ?); [done|].
    exists m', f. split; [by right|done].
  - intros [= <-]. apply columns_err in Hcs as (f & ? & ?).
    exists m, f. split; [by left|done].
Qed.

Lemma fieldColumn_err m f e :
  fieldColumn m f = Err e → isConversionError e = true.
Proof.
  unfold fieldColumn. case_decide as Hu; [by intros [= <-]|].
  destruct (FieldTypeFor (telegraf.Value_ f)) as [|k|k]; [done|..];
    destruct k; simpl; try (by intros [= <-]);
    match goal with
    | |- context [boxed _ _ ?r] => destruct r; simpl; by intros [= <-]
    end.
Qed.

Lemma Forall2_elem_of_l {A B} (P : A → B → Prop) (l : list A) (k : list B) :
  Forall2 P l k → Forall2 (λ x y, x ∈ l ∧ P x y) l k.
Proof.
  induction 1 as [|x y l k Hxy _ IH]; constructor.
  - split; [by left|done].
  - eapply Forall2_impl; [exact IH|]. intros ?? [??]. split; [by right|done].
Qed.

(** The columns after the time column of a table are the columns of the
    fields of its metrics, field by field. *)
Lemma group_columns ms css (group : list telegraf.Metric) :
  batchColumns ms = Ok css → group ⊆ ms →
  Forall2 (λ f c, ∃ m, m ∈ group ∧ f ∈ telegraf.FieldList m ∧
                       fieldColumn m f = Ok c)
          (group ≫= telegraf.FieldList) (mjoin (columnsOf <$> group)).
Proof.
  intros Hms. induction group as [|m group IH]; intros Hsub; csimpl.
  - constructor.
  - apply Forall2_app.
    + destruct (batchColumns_ok ms css m Hms) as [cs Hcs]; [set_solver|].
      unfold columnsOf. rewrite Hcs.
      apply columns_Forall2, Forall2_elem_of_l in Hcs.
      eapply Forall2_impl; [exact Hcs|].
      intros f c [??]. exists m. split; [by left|done].
    + eapply Forall2_impl; [apply IH; set_solver|].
      intros f c (m' & ? & ? & ?). exists m'. split; [by right|done].
Qed.

(** *** The emitted tables *)

Lemma tablesOf_elem ms (w : FrameWrapper) :
  w ∈ tablesOf ms →
  ∃ k m0 group,
    keyed k ms = m0 :: group ∧
    w = Some {| key := telegraf.Name m0;
                fields := data.NewTimeField "time" ∅ [telegraf.Time m0]
                          :: mjoin (columnsOf <$> m0 :: group) |}.
Proof.
  unfold tablesOf. intros (k & -> & Hk)%list_elem_of_fmap.
  rewrite firstSeen_elem_of in Hk.
  destruct (keyed k ms) as [|m0 group] eqn:Hg.
  - by apply keyed_nil_iff in Hg.
  - by exists k, m0, group.
Qed.

Lemma frameKeyOf_keyed k ms m0 group rest :
  keyed k ms = m0 :: group →
  frameKeyOf {| key := telegraf.Name m0;
                fields := data.NewTimeField "time" ∅ [telegraf.Time m0]
                          :: rest |} = k.
Proof.
  intros Hg. assert (m0 ∈ keyed k ms) as Hin by (rewrite Hg; by left).
  by apply keyed_elem_of in Hin as [<- _].
Qed.

Lemma keyed_subseteq k ms : keyed k ms ⊆ ms.
Proof. intros m. rewrite keyed_elem_of. naive_solver. Qed.

Lemma Convert_decoded (c : Converter) body p ms :
  Parse (parser c) body = (p, inr ms) →
  Convert c body = ({| parser := p |}, convertMetrics ms).
Proof. unfold Convert. by intros ->. Qed.

Lemma Convert_accepts (c : Converter) body p ms frames :
  Parse (parser c) body = (p, inr ms) →
  (Convert c body).2 = Returned frames None →
  convertMetrics ms = Returned frames None.
Proof. intros Hp. by rewrite (Convert_decoded _ _ _ _ Hp). Qed.

(** Every wrapper of an accepted batch is a table: named after a metric of
    the batch, its time first, then one column for each field of the metrics
    that have its frame key. *)
Lemma accepted_table (c : Converter) body p ms frames (w : FrameWrapper) :
  Parse (parser c) body = (p, inr ms) →
  (Convert c body).2 = Returned frames None →
  w ∈ frames →
  ∃ s m0 rest,
    w = Some s ∧ m0 ∈ ms ∧ frameKeyOf s = getFrameKey m0 ∧
    key s = telegraf.Name m0 ∧
    fields s = data.NewTimeField "time" ∅ [telegraf.Time m0] :: rest ∧
    Forall2 (λ f col, ∃ m, m ∈ keyed (frameKeyOf s) ms ∧
                           f ∈ telegraf.FieldList m ∧
                           fieldColumn m f = Ok col)
            (keyed (frameKeyOf s) ms ≫= telegraf.FieldList) rest.
Proof.
  intros Hp Hc Hw.
  apply (Convert_accepts _ _ _ _ _ Hp) in Hc.
  rewrite convertMetrics_tables in Hc.
  destruct (batchColumns ms) as [css| |] eqn:Hcss; [|done..].
  injection Hc as <-.
  apply tablesOf_elem in Hw as (k & m0 & group & Hg & ->).
  assert (m0 ∈ keyed k ms) as Hm0 by (rewrite Hg; by left).
  apply keyed_elem_of in Hm0 as [Hk0 Hm0].
  eexists _, m0, _. split; [done|]. split; [done|].
  rewrite (frameKeyOf_keyed k ms m0 group _ Hg).
  split; [done|]. split; [done|]. split; [done|].
  rewrite <-Hg. eapply group_columns; [done|apply keyed_subseteq].
Qed.

Lemma convertMetrics_accepts ms frames :
  convertMetrics ms = Returned frames None →
  (∃ css, batchColumns ms = Ok css) ∧ frames = tablesOf ms.
Proof.
  rewrite convertMetrics_tables.
  destruct (batchColumns ms) as [css| |]; [|done..].
  intros [= <-]. eauto.
Qed.

Lemma convertMetrics_no_panic ms : convertMetrics ms ≠ Panicked.
Proof.
  rewrite convertMetrics_tables.
  pose proof (batchColumns_no_panic ms).
  by destruct (batchColumns ms).
Qed.

(** Every field of an accepted batch has its column in the table of the
    frame key of its metric. *)
Lemma emitted_field ms frames m f :
  convertMetrics ms = Returned frames None →
  m ∈ ms → f ∈ telegraf.FieldList m →
  ∃ s col, Some s ∈ frames ∧ frameKeyOf s = getFrameKey m ∧
           col ∈ tail (fields s) ∧ fieldColumn m f = Ok col.
Proof.
  intros Hc Hm Hf.
  destruct (convertMetrics_accepts _ _ Hc) as [[css Hcss] ->].
  destruct (batchColumns_ok _ _ m Hcss Hm) as [cs Hcs].
  pose proof (columns_Forall2 _ _ _ Hcs) as Hall.
  apply list_elem_of_lookup in Hf as [i Hi].
  destruct (Forall2_lookup_l _ _ _ _ _ Hall Hi) as (col & Hicol & Hcol).
  destruct (keyed (getFrameKey m) ms) as [|m0 group] eqn:Hg.
  { apply keyed_nil_iff in Hg. destruct Hg. by apply list_elem_of_fmap_2. }
  eexists _, col. split; [|split; [|split; [|done]]].
  - unfold tablesOf. apply list_elem_of_fmap.
    exists (getFrameKey m). rewrite Hg. split; [done|].
    apply firstSeen_elem_of. by apply list_elem_of_fmap_2.
  - by apply (frameKeyOf_keyed _ ms m0 group).
  - cbn [tail fields]. rewrite <-Hg. apply list_elem_of_join.
    exists cs. split; [by eapply list_elem_of_lookup_2|].
    apply list_elem_of_fmap. exists m. split.
    + unfold columnsOf. by rewrite Hcs.
    + by apply keyed_elem_of.
Qed.

End Loops.

(** ** Wide mode *)

Section Wide.
Context `{X : Externals}.
Implicit Types (m : telegraf.Metric) (t : wideTable) (st : wideFrames).
Implicit Types (cols : list data.Field) (col : data.Field).








End Wide.

(** ** Properties of [Convert] *)

Section Properties.
Context `{X : Externals}.
Implicit Types (c : Converter) (body : list Byte.byte).
Implicit Types (ms : list telegraf.Metric) (frames : list FrameWrapper).

(** C6: if the decoder fails on the raw batch, [Convert] fails with the
    parse error that carries the decoder's failure and returns no table; the
    decoder has been called once and not again: the parser is left in its
    state after that one call. *)
Theorem C6_parse_failure_propagates c body p cause :
  Parse (parser c) body = (p, inl cause) →
  Convert c body = ({| parser := p |}, Returned [] (Some (ErrParse cause))).
Proof. unfold Convert. by intros ->. Qed.

(** C5: whenever some field of some metric of the batch cannot be turned
    into its column, [Convert] fails with a conversion error (the error of a
    field of the batch, never a parse error) and returns no table at all. *)
Theorem C5_conversion_failure_rejects_batch c body p ms m f e :
  Parse (parser c) body = (p, inr ms) →
  m ∈ ms → f ∈ telegraf.FieldList m → fieldColumn m f = Err e →
  ∃ e', (Convert c body).2 = Returned [] (Some e') ∧
        isConversionError e' = true ∧
        ∃ m' f', m' ∈ ms ∧ f' ∈ telegraf.FieldList m' ∧
                 fieldColumn m' f' = Err e'.
Proof.
  intros Hp Hm Hf He. rewrite (Convert_decoded _ _ _ _ Hp). simpl.
  rewrite convertMetrics_tables.
  destruct (batchColumns ms) as [css|e'|] eqn:Hcss.
  - destruct (batchColumns_ok _ _ m Hcss Hm) as [cs Hcs].
    apply columns_Forall2 in Hcs.
    apply list_elem_of_lookup in Hf as [i Hi].
    destruct (Forall2_lookup_l _ _ _ _ _ Hcs Hi) as (col & _ & Hcol).
    congruence.
  - exists e'. split; [done|].
    destruct (batchColumns_err _ _ Hcss) as (m' & f' & ? & ? & He').
    split; [by eapply fieldColumn_err|]. by exists m', f'.
  - by destruct (batchColumns_no_panic ms).
Qed.

(** C4: in an accepted batch every field of every metric has its column in
    an emitted table, and every column after the time column of an emitted
    table is the column of such a field; the column's type is the nullable
    variant of the field type of the field's value, one of nullable-string,
    nullable-float64, nullable-int64 and nullable-bool, and never a
    non-nullable type. *)
Theorem C4_field_columns_are_nullable c body p ms frames :
  Parse (parser c) body = (p, inr ms) →
  (Convert c body).2 = Returned frames None →
  (∀ m f, m ∈ ms → f ∈ telegraf.FieldList m →
     ∃ s col, Some s ∈ frames ∧ col ∈ tail (fields s) ∧
              fieldColumn m f = Ok col) ∧
  (∀ s col, Some s ∈ frames → col ∈ tail (fields s) →
     ∃ m f, m ∈ ms ∧ f ∈ telegraf.FieldList m ∧
            fieldColumn m f = Ok col ∧
            data.Name col = telegraf.Key f ∧
            data.NullableType (FieldTypeFor (telegraf.Value_ f))
              = Some (data.Type_ col) ∧
            data.Type_ col ∈ [data.FieldTypeNullableString;
                              data.FieldTypeNullableFloat64;
                              data.FieldTypeNullableInt64;
                              data.FieldTypeNullableBool] ∧
            data.Nullable (data.Type_ col) = true).
Proof.
  intros Hp Hc. split.
  - intros m f Hm Hf.
    apply (Convert_accepts _ _ _ _ _ Hp) in Hc.
    destruct (emitted_field _ _ m f Hc Hm Hf) as (s & col & ? & _ & ? & ?).
    by exists s, col.
  - intros s col Hs Hcol.
    destruct (accepted_table _ _ _ _ _ _ Hp Hc Hs)
      as (s' & m0 & rest & [= <-] & _ & _ & _ & Hfields & Hall).
    rewrite Hfields in Hcol. simpl in Hcol.
    apply list_elem_of_lookup in Hcol as [i Hi].
    destruct (Forall2_lookup_r _ _ _ _ _ Hall Hi)
      as (f & _ & m & [_ Hm]%keyed_elem_of & Hf & Hfc).
    exists m, f. do 3 (split; [done|]).
    apply fieldColumn_inv in Hfc as (k & ptr & Hty & Hk & ->). simpl.
    split; [done|]. split; [done|]. split; [|done].
    set_solver.
Qed.

(** C10: in an accepted batch every wrapper is a table whose columns, the
    time column and every field column, all have length 1; the table of a
    frame key has one column for each field of each metric that has the key,
    so a later metric of the same key adds columns, never rows. *)
Theorem C10_every_column_has_length_one c body p ms frames :
  Parse (parser c) body = (p, inr ms) →
  (Convert c body).2 = Returned frames None →
  ∀ w, w ∈ frames →
    ∃ s, w = Some s ∧
         Forall (λ col, data.Len col = 1) (fields s) ∧
         length (fields s)
         = 1 + length (keyed (frameKeyOf s) ms ≫= telegraf.FieldList).
Proof.
  intros Hp Hc w Hw.
  destruct (accepted_table _ _ _ _ _ _ Hp Hc Hw)
    as (s & m0 & rest & -> & _ & _ & _ & Hfields & Hall).
  exists s. split; [done|]. rewrite Hfields. split.
  - constructor; [done|].
    eapply Forall2_Forall_r; [exact Hall|].
    apply Forall_forall. intros f _ col (m & _ & _ & Hfc).
    by apply fieldColumn_inv in Hfc as (k & ptr & _ & _ & ->).
  - simpl. by rewrite (Forall2_length _ _ _ Hall).
Qed.

(** C7, in the form that holds: in every emitted table the time column is the first
    column; the columns after it are named after the field keys of the
    metrics folded into the table, one column for each field and in their
    order, so that these names are unique exactly when no field key occurs
    twice among those metrics. *)
Theorem C7_time_first_names_follow_field_keys c body p ms frames :
  Parse (parser c) body = (p, inr ms) →
  (Convert c body).2 = Returned frames None →
  ∀ w, w ∈ frames →
    ∃ s t rest,
      w = Some s ∧
      fields s = data.NewTimeField "time" ∅ [t] :: rest ∧
      data.Name <$> rest
      = telegraf.Key <$> (keyed (frameKeyOf s) ms ≫= telegraf.FieldList) ∧
      (NoDup (data.Name <$> rest) ↔
       NoDup (telegraf.Key
                <$> (keyed (frameKeyOf s) ms ≫= telegraf.FieldList))).
Proof.
  intros Hp Hc w Hw.
  destruct (accepted_table _ _ _ _ _ _ Hp Hc Hw)
    as (s & m0 & rest & -> & _ & _ & _ & Hfields & Hall).
  exists s, (telegraf.Time m0), rest. do 2 (split; [done|]).
  assert (data.Name <$> rest
          = telegraf.Key <$> (keyed (frameKeyOf s) ms ≫= telegraf.FieldList))
    as Hnames.
  { clear Hfields. induction Hall as [|f col fl cols Hfc _ IH]; csimpl;
      [done|].
    destruct Hfc as (m & _ & _ & Hfc).
    apply fieldColumn_inv in Hfc as (k & ptr & _ & _ & ->). simpl.
    by rewrite IH. }
  split; [done|]. by rewrite Hnames.
Qed.


(** C1: when a time prints without underscore and distinct times print
    differently, two metrics have the same frame key if and only if they
    have equal names and exactly equal times, and the tables of an accepted
    batch are, in the order of first occurrence, one table for each distinct
    pair of a name and a time among the decoded metrics, folded from exactly
    the metrics of that name and that time. *)
Theorem C1_one_table_per_name_and_time c body p ms frames :
  Inj (=) (=) TimeString →
  (∀ t, occurs "_" (TimeString t) = false) →
  Parse (parser c) body = (p, inr ms) →
  (Convert c body).2 = Returned frames None →
  (∀ m1 m2, getFrameKey m1 = getFrameKey m2 ↔
            telegraf.Name m1 = telegraf.Name m2 ∧
            telegraf.Time m1 = telegraf.Time m2) ∧
  frames = (λ nt, tableOf (recorded nt ms))
           <$> firstSeen ((λ m, (telegraf.Name m, telegraf.Time m)) <$> ms).
Proof.
  intros Hinj Hus Hp Hc.
  set (join := λ nt : string * time.Time, nt.1 +:+ "_" +:+ TimeString nt.2).
  assert (Inj (=) (=) join) as Hjoin.
  { intros [n1 t1] [n2 t2] Heq. unfold join in Heq. simpl in Heq.
    apply separator_inj in Heq as [-> Ht]; [|done..].
    by apply Hinj in Ht as ->. }
  split.
  - intros m1 m2. split.
    + intros Heq.
      apply (Hjoin (telegraf.Name m1, telegraf.Time m1)
                   (telegraf.Name m2, telegraf.Time m2)) in Heq.
      by injection Heq.
    + unfold getFrameKey. by intros [-> ->].
  - apply (Convert_accepts _ _ _ _ _ Hp) in Hc.
    destruct (convertMetrics_accepts _ _ Hc) as [_ ->].
    unfold tablesOf.
    change getFrameKey
      with (join ∘ (λ m, (telegraf.Name m, telegraf.Time m))) at 1.
    rewrite list_fmap_compose, (firstSeen_fmap join _ Hjoin).
    rewrite <-list_fmap_compose. apply list_fmap_ext.
    intros _ [n t] _. simpl. f_equal. unfold keyed, recorded.
    apply list_filter_iff. intros m. simpl. split.
    + intros Heq.
      apply (Hjoin (telegraf.Name m, telegraf.Time m) (n, t)) in Heq.
      by injection Heq.
    + unfold getFrameKey, join. by intros [-> ->].
Qed.



End Properties.

(** ** The properties at the sample batches *)

Lemma C6_witness :
  @Convert (testExternals (inl "bad line")) NewConverter []
  = (@Build_Converter (testExternals (inl "bad line")) 1,
     Returned [] (Some (ErrParse "bad line"))).
Proof.
  apply (C6_parse_failure_propagates (X := testExternals (inl "bad line"))).
  reflexivity.
Defined.

Lemma C5_witness :
  ∃ e', run [tempInt; diskUnsigned] = Returned [] (Some e') ∧
        isConversionError e' = true ∧
        ∃ m' f', m' ∈ [tempInt; diskUnsigned] ∧
                 f' ∈ telegraf.FieldList m' ∧
                 @fieldColumn (decoding [tempInt; diskUnsigned]) m' f'
                 = Err e'.
Proof.
  apply (C5_conversion_failure_rejects_batch
           (X := decoding [tempInt; diskUnsigned]) NewConverter [] 1
           [tempInt; diskUnsigned] diskUnsigned
           (field "used" (telegraf.VUint64 10))
           (ErrNoConverter "used" (telegraf.VUint64 10)
                           (data.Nullable_ data.Uint64))).
  - reflexivity.
  - right. left.
  - left.
  - reflexivity.
Defined.

Lemma run_tempInt_tempFloat :
  run [tempInt; tempFloat] = Returned [Some tempTable] None.
Proof. vm_compute. reflexivity. Qed.

Lemma run_cpu0_cpu1 : run [cpu0; cpu1] = Returned [Some cpuTable] None.
Proof. vm_compute. reflexivity. Qed.

Lemma run_three :
  run [tempInt; tempFloat; tempLater]
  = Returned [Some tempTable; Some tempLaterTable] None.
Proof. vm_compute. reflexivity. Qed.

Lemma C4_witness :
  run [tempInt; tempFloat] = Returned [Some tempTable] None ∧
  ∀ s col, Some s ∈ [Some tempTable] → col ∈ tail (fields s) →
    ∃ m f, m ∈ [tempInt; tempFloat] ∧ f ∈ telegraf.FieldList m ∧
           @fieldColumn (decoding [tempInt; tempFloat]) m f = Ok col ∧
           data.Name col = telegraf.Key f ∧
           data.NullableType (testFieldTypeFor (telegraf.Value_ f))
             = Some (data.Type_ col) ∧
           data.Type_ col ∈ [data.FieldTypeNullableString;
                             data.FieldTypeNullableFloat64;
                             data.FieldTypeNullableInt64;
                             data.FieldTypeNullableBool] ∧
           data.Nullable (data.Type_ col) = true.
Proof.
  split; [exact run_tempInt_tempFloat|].
  apply (C4_field_columns_are_nullable
           (X := decoding [tempInt; tempFloat]) NewConverter [] 1
           [tempInt; tempFloat] [Some tempTable]).
  - reflexivity.
  - exact run_tempInt_tempFloat.
Defined.

Lemma C10_witness :
  run [cpu0; cpu1] = Returned [Some cpuTable] None ∧
  ∀ w, w ∈ [Some cpuTable] →
    ∃ s, w = Some s ∧
         Forall (λ col, data.Len col = 1) (fields s) ∧
         length (fields s)
         = 1 + length (@keyed (decoding [cpu0; cpu1])
                              (@frameKeyOf (decoding [cpu0; cpu1]) s)
                              [cpu0; cpu1]
                       ≫= telegraf.FieldList).
Proof.
  split; [exact run_cpu0_cpu1|].
  apply (C10_every_column_has_length_one
           (X := decoding [cpu0; cpu1]) NewConverter [] 1).
  - reflexivity.
  - exact run_cpu0_cpu1.
Defined.

Lemma C7_witness :
  run [tempInt; tempFloat; tempLater]
  = Returned [Some tempTable; Some tempLaterTable] None ∧
  ∀ w, w ∈ [Some tempTable; Some tempLaterTable] →
    ∃ s t rest,
      w = Some s ∧
      fields s = data.NewTimeField "time" ∅ [t] :: rest ∧
      data.Name <$> rest
      = telegraf.Key
          <$> (@keyed (decoding [tempInt; tempFloat; tempLater])
                      (@frameKeyOf (decoding [tempInt; tempFloat; tempLater]) s)
                      [tempInt; tempFloat; tempLater]
               ≫= telegraf.FieldList) ∧
      (NoDup (data.Name <$> rest) ↔
       NoDup (telegraf.Key
                <$> (@keyed (decoding [tempInt; tempFloat; tempLater])
                            (@frameKeyOf
                               (decoding [tempInt; tempFloat; tempLater]) s)
                            [tempInt; tempFloat; tempLater]
                     ≫= telegraf.FieldList))).
Proof.
  split; [exact run_three|].
  apply (C7_time_first_names_follow_field_keys
           (X := decoding [tempInt; tempFloat; tempLater]) NewConverter [] 1).
  - reflexivity.
  - exact run_three.
Defined.

(** C7 fails for unique names: [cpu0] and [cpu1] have one frame key and both
    have the field [usage_idle]; their table is emitted with two columns of
    that name. *)
Lemma C7_counterexample :
  run [cpu0; cpu1] = Returned [Some cpuTable] None ∧
  data.Name <$> fields cpuTable = ["time"; "usage_idle"; "usage_idle"] ∧
  ¬ NoDup (data.Name <$> tail (fields cpuTable)).
Proof.
  split; [exact run_cpu0_cpu1|]. split; [reflexivity|].
  simpl. rewrite NoDup_cons. intros [Hnot _]. apply Hnot. left.
Qed.


Lemma C1_witness :
  (∀ m1 m2,
     @getFrameKey (decoding [tempInt; tempFloat; tempLater]) m1
     = @getFrameKey (decoding [tempInt; tempFloat; tempLater]) m2 ↔
     telegraf.Name m1 = telegraf.Name m2 ∧
     telegraf.Time m1 = telegraf.Time m2) ∧
  [Some tempTable; Some tempLaterTable]
  = (λ nt, @tableOf (decoding [tempInt; tempFloat; tempLater])
             (recorded nt [tempInt; tempFloat; tempLater]))
    <$> firstSeen ((λ m, (telegraf.Name m, telegraf.Time m))
                     <$> [tempInt; tempFloat; tempLater]).
Proof.
  apply (C1_one_table_per_name_and_time
           (X := decoding [tempInt; tempFloat; tempLater]) NewConverter [] 1).
  - exact pretty_Z_inj.
  - exact occurs_pretty_Z.
  - reflexivity.
  - exact run_three.
Defined.

Lemma ConvertWith_default `{X : Externals} (c : Converter) body :
  ConvertWith defaultOptions c body = Convert c body.
Proof. reflexivity. Qed.


Lemma runWith_floatNumbers :
  runWith {| useLabelsColumn := false; floatNumbers := true |}
          [tempInt; tempFloat]
  = Returned [Some tempFloatTable] None.
Proof. vm_compute. reflexivity. Qed.


(** C8: field-order independence does not hold of the code.  [fieldsAB] and
    [fieldsBA] are one record, its two fields listed in the two orders;
    [Convert] returns for each its table with the columns in the order of
    the fields, and the two frames differ. *)
Theorem C8_field_order_shows_in_the_table :
  telegraf.FieldList fieldsBA ≡ₚ telegraf.FieldList fieldsAB ∧
  run [fieldsAB] = Returned [Some tableAB] None ∧
  run [fieldsBA] = Returned [Some tableBA] None ∧
  data.Name <$> Fields (Frame_ tableAB) = ["time"; "a"; "b"] ∧
  data.Name <$> Fields (Frame_ tableBA) = ["time"; "b"; "a"] ∧
  Frame_ tableAB ≠ Frame_ tableBA.
Proof.
  split; [apply Permutation_swap|].
  split; [vm_compute; reflexivity|].
  split; [vm_compute; reflexivity|].
  split; [reflexivity|]. split; [reflexivity|].
  intros Heq. apply (f_equal (λ fr, data.Name <$> Fields fr)) in Heq.
  discriminate Heq.
Qed.




(** ** More on first occurrences and groups *)

Section Groups.
Context `{EqDecision A}.
Implicit Types l : list A.

Lemma firstSeen_length l : length (firstSeen l) ≤ length l.
Proof.
  induction l as [|a l IH]; simpl; [done|].
  pose proof (length_filter (λ y, y ≠ a) (firstSeen l)). lia.
Qed.

Lemma filter_all {C} (P : C → Prop) `{∀ x, Decision (P x)} (l : list C) :
  (∀ x, x ∈ l → P x) → filter P l = l.
Proof.
  induction l as [|a l IH]; intros Hall; [done|].
  rewrite filter_cons_True by (apply Hall; by left).
  f_equal. apply IH. intros x Hx. apply Hall. by right.
Qed.

Lemma firstSeen_app l1 l2 :
  firstSeen (l1 ++ l2)
  = firstSeen l1 ++ filter (λ x, x ∉ l1) (firstSeen l2).
Proof.
  induction l1 as [|a l1 IH]; simpl.
  - symmetry. apply filter_all. intros x _. apply not_elem_of_nil.
  - f_equal. rewrite IH, filter_app. f_equal.
    rewrite list_filter_filter. apply list_filter_iff.
    intros x. rewrite not_elem_of_cons. naive_solver.
Qed.

(** The part of a filtered list before its first element. *)
Lemma filter_cons_inv (P : A → Prop) `{∀ x, Decision (P x)} l x r :
  filter P l = x :: r →
  ∃ pre post, l = pre ++ x :: post ∧ Forall (λ y, ¬ P y) pre ∧ P x ∧
              r = filter P post.
Proof.
  induction l as [|a l IH]; [done|].
  rewrite filter_cons. destruct (decide (P a)) as [Ha|Ha].
  - intros [= -> <-]. exists [], l. by repeat split.
  - intros (pre & post & -> & Hpre & Hx & Hr)%IH.
    exists (a :: pre), post. split; [done|]. split; [by constructor|done].
Qed.

Lemma groups_move `{EqDecision B} (G : B → list A) (k0 : B) (ks : list B) :
  NoDup ks → (k0 ∉ ks → G k0 = []) →
  G k0 ++ mjoin (G <$> filter (λ k, k ≠ k0) ks) ≡ₚ mjoin (G <$> ks).
Proof.
  induction 1 as [|k ks Hk Hnd IH]; intros Hout.
  - by rewrite Hout by apply not_elem_of_nil.
  - destruct (decide (k = k0)) as [->|Hne].
    + rewrite filter_cons_False by naive_solver.
      rewrite filter_all; [done|]. by intros k ? ->.
    + rewrite filter_cons_True by done. csimpl.
      rewrite <-IH.
      * by rewrite !app_assoc, (comm (++) (G k0)).
      * intros Hk0. apply Hout. rewrite not_elem_of_cons. naive_solver.
Qed.

(** The groups of a list by a key, taken in the order of first occurrence
    of the keys, are the list rearranged. *)
Lemma groups_Permutation `{EqDecision B} (f : A → B) l :
  mjoin ((λ k, filter (λ x, f x = k) l) <$> firstSeen (f <$> l)) ≡ₚ l.
Proof.
  induction l as [|a l IH]; csimpl; [done|].
  rewrite filter_cons_True by done. csimpl. constructor.
  assert ((λ k, filter (λ x, f x = k) (a :: l))
            <$> filter (λ y, y ≠ f a) (firstSeen (f <$> l))
          = (λ k, filter (λ x, f x = k) l)
            <$> filter (λ k, k ≠ f a) (firstSeen (f <$> l))) as ->.
  { apply list_fmap_ext.
    intros i k [Hk _]%list_elem_of_lookup_2%list_elem_of_filter.
    by rewrite filter_cons_False. }
  set (G := λ k : B, filter (λ x, f x = k) l) in *.
  change (filter (λ x, f x = f a) l) with (G (f a)).
  rewrite (groups_move G (f a) (firstSeen (f <$> l)));
    [exact IH|apply firstSeen_NoDup|].
  rewrite firstSeen_elem_of. intros Hout.
  apply elem_of_nil_inv. intros x [Hx Hin]%list_elem_of_filter.
  apply Hout, list_elem_of_fmap. eauto.
Qed.

End Groups.

(** ** Further properties of [Convert] *)

Section Further.
Context `{X : Externals}.
Implicit Types (c : Converter) (body : list Byte.byte).
Implicit Types (ms : list telegraf.Metric) (frames : list FrameWrapper).
Implicit Types (m : telegraf.Metric) (f : telegraf.Field).

Lemma batchColumns_all ms :
  (∃ css, batchColumns ms = Ok css) ↔
  ∀ m f, m ∈ ms → f ∈ telegraf.FieldList m →
         ∃ col, fieldColumn m f = Ok col.
Proof.
  split.
  - intros [css Hcss] m f Hm Hf.
    destruct (batchColumns_ok _ _ m Hcss Hm) as [cs Hcs].
    apply columns_Forall2 in Hcs.
    apply list_elem_of_lookup in Hf as [i Hi].
    destruct (Forall2_lookup_l _ _ _ _ _ Hcs Hi) as (col & _ & Hcol). eauto.
  - intros Hall. destruct (batchColumns ms) as [css|e|] eqn:H; [eauto| |].
    + destruct (batchColumns_err _ _ H) as (m & f & Hm & Hf & He).
      destruct (Hall m f Hm Hf) as [col Hcol]. congruence.
    + by destruct (batchColumns_no_panic ms).
Qed.

(** The wrappers of [tablesOf] are tables, one for each frame key. *)
Lemma tablesOf_Some ms :
  ∃ tables,
    tablesOf ms = Some <$> tables ∧
    frameKeyOf <$> tables = firstSeen (getFrameKey <$> ms) ∧
    Forall (λ s, ∃ m0 group,
              keyed (frameKeyOf s) ms = m0 :: group ∧
              s = {| key := telegraf.Name m0;
                     fields := data.NewTimeField "time" ∅ [telegraf.Time m0]
                               :: mjoin (columnsOf <$> m0 :: group) |})
           tables.
Proof.
  unfold tablesOf.
  assert (∀ k, k ∈ firstSeen (getFrameKey <$> ms) →
               k ∈ getFrameKey <$> ms) as Hks
    by (intros k; by rewrite firstSeen_elem_of).
  induction (firstSeen (getFrameKey <$> ms)) as [|k ks IH]; csimpl.
  - exists []. by repeat split.
  - destruct IH as (tables & -> & Hkeys & Hall); [intros; apply Hks; by right|].
    destruct (keyed k ms) as [|m0 group] eqn:Hg.
    { apply keyed_nil_iff in Hg. destruct Hg. apply Hks. by left. }
    eexists (_ :: tables). split; [done|].
    pose proof (frameKeyOf_keyed k ms m0 group
                  (mjoin (columnsOf <$> m0 :: group)) Hg) as Hkey.
    split; [rewrite fmap_cons; f_equal; [exact Hkey|exact Hkeys]|].
    constructor; [|done]. exists m0, group. by rewrite Hkey.
Qed.

(** X1: [Convert] never panics: [NullableType], [NewFieldFromFieldType] and
    [Field.Set] are only called where they are defined. *)
Theorem Convert_never_panics c body : (Convert c body).2 ≠ Panicked.
Proof.
  unfold Convert. destruct (Parse (parser c) body) as [p [cause|ms]]; simpl.
  - done.
  - apply convertMetrics_no_panic.
Qed.

(** X2: a batch the decoder accepts is converted without error exactly when
    every field of every metric of it converts. *)
Theorem Convert_accepts_iff_all_fields_convert c body p ms :
  Parse (parser c) body = (p, inr ms) →
  (∃ frames, (Convert c body).2 = Returned frames None) ↔
  (∀ m f, m ∈ ms → f ∈ telegraf.FieldList m →
          ∃ col, fieldColumn m f = Ok col).
Proof.
  intros Hp. rewrite (Convert_decoded _ _ _ _ Hp). simpl.
  rewrite convertMetrics_tables, <-batchColumns_all.
  destruct (batchColumns ms) as [css|e|]; split;
    first [by intros [? ?] | eauto].
Qed.

(** X3: when [Convert] returns an error it returns no wrapper, and the
    error tells the stage that failed: a parse error when the decoder
    failed, the error of a field when the decoder gave the metrics. *)
Theorem Convert_error_excludes_tables c body frames e :
  (Convert c body).2 = Returned frames (Some e) →
  frames = [] ∧
  ((∃ cause, (Parse (parser c) body).2 = inl cause ∧ e = ErrParse cause) ∨
   (∃ ms m f, (Parse (parser c) body).2 = inr ms ∧ m ∈ ms ∧
              f ∈ telegraf.FieldList m ∧ fieldColumn m f = Err e ∧
              isConversionError e = true)).
Proof.
  unfold Convert. destruct (Parse (parser c) body) as [p [cause|ms]]; simpl.
  - intros [= <- <-]. split; [done|]. left. eauto.
  - rewrite convertMetrics_tables.
    destruct (batchColumns ms) as [css|e'|] eqn:Hcss; [done| |done].
    intros [= <- <-]. split; [done|]. right.
    destruct (batchColumns_err _ _ Hcss) as (m & f & ? & ? & He).
    exists ms, m, f. do 4 (split; [done|]). by eapply fieldColumn_err.
Qed.

(** X4: an accepted batch gives one table for each distinct frame key: the
    tables have pairwise distinct frame keys, there are at most as many as
    metrics, and none exactly when the batch has no metric. *)
Theorem Convert_table_count c body p ms frames :
  Parse (parser c) body = (p, inr ms) →
  (Convert c body).2 = Returned frames None →
  ∃ tables,
    frames = Some <$> tables ∧
    NoDup (frameKeyOf <$> tables) ∧
    length tables = length (firstSeen (getFrameKey <$> ms)) ∧
    length tables ≤ length ms ∧
    (tables = [] ↔ ms = []).
Proof.
  intros Hp Hc. apply (Convert_accepts _ _ _ _ _ Hp) in Hc.
  destruct (convertMetrics_accepts _ _ Hc) as [_ ->].
  destruct (tablesOf_Some ms) as (tables & Htab & Hkeys & _).
  exists tables. split; [done|].
  split; [rewrite Hkeys; apply firstSeen_NoDup|].
  assert (length tables = length (firstSeen (getFrameKey <$> ms))) as Hlen
    by (by rewrite <-Hkeys, length_fmap).
  split; [done|]. split.
  - rewrite Hlen. etrans; [apply firstSeen_length|]. by rewrite length_fmap.
  - split.
    + intros ->. destruct ms; [done|]. done.
    + intros ->. by destruct tables.
Qed.

Lemma columns_err_first m fl e :
  columns m fl = Err e →
  ∃ fpre f fpost,
    fl = fpre ++ f :: fpost ∧
    Forall (λ f', ∃ col, fieldColumn m f' = Ok col) fpre ∧
    fieldColumn m f = Err e.
Proof.
  induction fl as [|f0 fl IH]; simpl; [done|].
  destruct (fieldColumn m f0) as [col0|e0|] eqn:Hf0; simpl; [| |done].
  - destruct (columns m fl) as [cs| |]; simpl; [done| |done].
    intros [= <-]. destruct IH as (fpre & f & fpost & -> & Hpre & Hf); [done|].
    exists (f0 :: fpre), f, fpost. split; [done|].
    split; [constructor; eauto|done].
  - intros [= <-]. exists [], f0, fl. by repeat split.
Qed.

Lemma batchColumns_err_first ms e :
  batchColumns ms = Err e →
  ∃ pre m post,
    ms = pre ++ m :: post ∧ (∃ css, batchColumns pre = Ok css) ∧
    metricColumns m = Err e.
Proof.
  induction ms as [|m0 ms IH]; simpl; [done|].
  destruct (metricColumns m0) as [cs0|e0|] eqn:Hm0; simpl; [| |done].
  - destruct (batchColumns ms) as [css| |]; simpl; [done| |done].
    intros [= <-].
    destruct IH as (pre & m & post & -> & [css Hpre] & Hm); [done|].
    exists (m0 :: pre), m, post. split; [done|]. split; [|done].
    simpl. rewrite Hm0, Hpre. simpl. eauto.
  - intros [= <-]. exists [], m0, ms. split; [done|]. split; [|done].
    simpl. eauto.
Qed.

(** X5: the error of a rejected batch is the error of its first failing
    field, in the order of the metrics and of the fields of a metric: every
    field of the metrics before and every field of the metric before it
    converts, whatever frame keys the metrics have. *)
Theorem Convert_fails_at_first_failing_field c body p ms frames e :
  Parse (parser c) body = (p, inr ms) →
  (Convert c body).2 = Returned frames (Some e) →
  ∃ pre m post fpre f fpost,
    ms = pre ++ m :: post ∧
    telegraf.FieldList m = fpre ++ f :: fpost ∧
    (∀ m' f', m' ∈ pre → f' ∈ telegraf.FieldList m' →
              ∃ col, fieldColumn m' f' = Ok col) ∧
    (∀ f', f' ∈ fpre → ∃ col, fieldColumn m f' = Ok col) ∧
    fieldColumn m f = Err e.
Proof.
  intros Hp. rewrite (Convert_decoded _ _ _ _ Hp). simpl.
  rewrite convertMetrics_tables.
  destruct (batchColumns ms) as [css|e'|] eqn:Hcss; [done| |done].
  intros [= <- <-].
  destruct (batchColumns_err_first _ _ Hcss)
    as (pre & m & post & -> & Hpre & Hm).
  destruct (columns_err_first _ _ _ Hm)
    as (fpre & f & fpost & Hfl & Hfpre & Hf).
  exists pre, m, post, fpre, f, fpost. do 2 (split; [done|]).
  split; [by apply batchColumns_all|].
  split; [|done]. by apply Forall_forall.
Qed.

(** X6: a table is named after the first metric of the batch that has its
    frame key: [Key()] and the name of [Frame()] are that metric's name, the
    first field of [Frame()] is the time column with that metric's time, and
    [Frame()] has the fields of the table. *)
Theorem Convert_table_named_after_first_metric c body p ms frames w :
  Parse (parser c) body = (p, inr ms) →
  (Convert c body).2 = Returned frames None →
  w ∈ frames →
  ∃ s pre m0 post,
    w = Some s ∧
    ms = pre ++ m0 :: post ∧
    Forall (λ m, getFrameKey m ≠ frameKeyOf s) pre ∧
    getFrameKey m0 = frameKeyOf s ∧
    Key s = telegraf.Name m0 ∧
    FrameName (Frame_ s) = telegraf.Name m0 ∧
    Fields (Frame_ s) = fields s ∧
    head (Fields (Frame_ s))
    = Some (data.NewTimeField "time" ∅ [telegraf.Time m0]).
Proof.
  intros Hp Hc Hw. apply (Convert_accepts _ _ _ _ _ Hp) in Hc.
  destruct (convertMetrics_accepts _ _ Hc) as [_ ->].
  destruct (tablesOf_Some ms) as (tables & Htab & _ & Hall).
  rewrite Htab in Hw. apply list_elem_of_fmap in Hw as (s & -> & Hs).
  rewrite Forall_forall in Hall.
  destruct (Hall s Hs) as (m0 & group & Hg & Heq).
  unfold keyed in Hg.
  apply filter_cons_inv in Hg as (pre & post & -> & Hpre & Hm0 & _).
  exists s, pre, m0, post. do 4 (split; [done|]).
  rewrite Heq. by repeat split.
Qed.

Lemma columns_labels m fl cs :
  columns m fl = Ok cs →
  data.Labels <$> cs = replicate (length fl) (telegraf.Tags m).
Proof.
  intros Hcs%columns_Forall2.
  induction Hcs as [|f col fl cs Hf _ IH]; csimpl; [done|].
  apply fieldColumn_inv in Hf as (k & ptr & _ & _ & ->). simpl.
  by rewrite IH.
Qed.

(** X7: the time column of a table has no labels, and every other column
    carries as its labels the tags of the metric its field comes from. *)
Theorem Convert_columns_labelled_with_tags c body p ms frames w :
  Parse (parser c) body = (p, inr ms) →
  (Convert c body).2 = Returned frames None →
  w ∈ frames →
  ∃ s timeField rest,
    w = Some s ∧ fields s = timeField :: rest ∧
    data.Labels timeField = ∅ ∧
    data.Labels <$> rest
    = keyed (frameKeyOf s) ms
      ≫= (λ m, replicate (length (telegraf.FieldList m)) (telegraf.Tags m)).
Proof.
  intros Hp Hc Hw. apply (Convert_accepts _ _ _ _ _ Hp) in Hc.
  destruct (convertMetrics_accepts _ _ Hc) as [[css Hcss] ->].
  destruct (tablesOf_Some ms) as (tables & Htab & _ & Hall).
  rewrite Htab in Hw. apply list_elem_of_fmap in Hw as (s & -> & Hs).
  rewrite Forall_forall in Hall.
  destruct (Hall s Hs) as (m0 & group & Hg & Heq).
  eexists s, _, _. split; [done|].
  split; [rewrite Heq; reflexivity|]. split; [done|]. rewrite Hg.
  assert (m0 :: group ⊆ ms) as Hsub
    by (rewrite <-Hg; apply keyed_subseteq).
  clear Hg Heq. induction (m0 :: group) as [|m g IH]; csimpl; [done|].
  rewrite fmap_app, IH by set_solver. f_equal.
  destruct (batchColumns_ok _ _ m Hcss) as [cs Hcs]; [set_solver|].
  unfold columnsOf. rewrite Hcs. by apply columns_labels.
Qed.

(** X8: the one cell of a field column is what the converter of the
    column's type returned for the value of the field, nil included. *)
Theorem Convert_cells_are_converter_results c body p ms frames s col :
  Parse (parser c) body = (p, inr ms) →
  (Convert c body).2 = Returned frames None →
  Some s ∈ frames → col ∈ tail (fields s) →
  ∃ m f,
    m ∈ ms ∧ f ∈ telegraf.FieldList m ∧ data.Name col = telegraf.Key f ∧
    ((∃ r, AnyToNullableString (telegraf.Value_ f) = inr r ∧
           data.Type_ col = data.FieldTypeNullableString ∧
           data.vector col = [data.Ptr data.String_ (data.SString <$> r)]) ∨
     (∃ r, JSONValueToNullableFloat64 (telegraf.Value_ f) = inr r ∧
           data.Type_ col = data.FieldTypeNullableFloat64 ∧
           data.vector col = [data.Ptr data.Float64 (data.SFloat <$> r)]) ∨
     (∃ r, BoolToNullableBool (telegraf.Value_ f) = inr r ∧
           data.Type_ col = data.FieldTypeNullableBool ∧
           data.vector col = [data.Ptr data.Bool (data.SBool <$> r)]) ∨
     (∃ r, JSONValueToNullableInt64 (telegraf.Value_ f) = inr r ∧
           data.Type_ col = data.FieldTypeNullableInt64 ∧
           data.vector col = [data.Ptr data.Int64 (data.SInt <$> r)])).
Proof.
  intros Hp Hc Hs Hcol.
  destruct (accepted_table _ _ _ _ _ _ Hp Hc Hs)
    as (s' & m0 & rest & [= <-] & _ & _ & _ & Hfields & Hall).
  rewrite Hfields in Hcol. simpl in Hcol.
  apply list_elem_of_lookup in Hcol as [i Hi].
  destruct (Forall2_lookup_r _ _ _ _ _ Hall Hi)
    as (f & _ & m & [_ Hm]%keyed_elem_of & Hf & Hfc).
  exists m, f. do 2 (split; [done|]).
  revert Hfc. unfold fieldColumn. case_decide as Hu; [done|].
  destruct (FieldTypeFor (telegraf.Value_ f)) as [|k|k]; [done|..];
    destruct k; simpl; try done;
    match goal with
    | |- context [boxed _ _ ?res] =>
        destruct res as [e|r0] eqn:Hr; simpl; [done|]
    end;
    intros [= <-]; (split; [done|]); simpl; eauto 10.
Qed.

(** X9: a field whose type [FieldTypeFor] does not know, or whose nullable
    type is none of string, float64, bool and int64 (an unsigned integer, a
    32-bit float, a time), has no column whatever the converters do: it
    fails with the unknown-type or the no-converter error, and a batch that
    holds it is rejected. *)
Theorem Convert_rejects_unsupported_types c body p ms m f :
  Parse (parser c) body = (p, inr ms) →
  m ∈ ms → f ∈ telegraf.FieldList m →
  (FieldTypeFor (telegraf.Value_ f) = data.FieldTypeUnknown ∨
   ∃ k, data.NullableType (FieldTypeFor (telegraf.Value_ f))
        = Some (data.Nullable_ k) ∧
        k ∉ [data.String_; data.Float64; data.Bool; data.Int64]) →
  (fieldColumn m f = Err (ErrUnknownType (telegraf.Value_ f)) ∨
   ∃ k, fieldColumn m f
        = Err (ErrNoConverter (telegraf.Key f) (telegraf.Value_ f)
                              (data.Nullable_ k))) ∧
  ∃ e, (Convert c body).2 = Returned [] (Some e).
Proof.
  intros Hp Hm Hf Hty.
  assert (fieldColumn m f = Err (ErrUnknownType (telegraf.Value_ f)) ∨
          ∃ k, fieldColumn m f
               = Err (ErrNoConverter (telegraf.Key f) (telegraf.Value_ f)
                                     (data.Nullable_ k))) as Herr.
  { unfold fieldColumn. destruct Hty as [->|(k & Hk & Hnot)].
    - left. by rewrite decide_True.
    - right. exists k.
      destruct (FieldTypeFor (telegraf.Value_ f)) as [|k'|k']; [done|..];
        injection Hk as ->; rewrite decide_False by done; simpl;
        destruct k; try done; destruct Hnot; set_solver. }
  split; [done|].
  rewrite (Convert_decoded _ _ _ _ Hp). simpl. rewrite convertMetrics_tables.
  destruct (batchColumns ms) as [css|e|] eqn:Hcss; [|eauto|].
  - destruct (proj1 (batchColumns_all ms) (ex_intro _ css Hcss) m f Hm Hf)
      as [col Hcol].
    destruct Herr as [Herr|[k Herr]]; congruence.
  - by destruct (batchColumns_no_panic ms).
Qed.

Lemma sum_list_with_bind {A B C} (F : A → list B) (G : B → list C)
    (l : list A) :
  sum_list_with (λ a, length (F a ≫= G)) l
  = length (mjoin (F <$> l) ≫= G).
Proof.
  induction l as [|a l IH]; csimpl; [done|].
  by rewrite bind_app, length_app, IH.
Qed.

(** X10: no metric and no field of an accepted batch is lost or repeated:
    the groups of metrics of the tables, taken table by table, are the
    batch rearranged, and the tables have together one column for each
    table (its time) and one for each field of the batch. *)
Theorem Convert_tables_partition_the_batch c body p ms frames :
  Parse (parser c) body = (p, inr ms) →
  (Convert c body).2 = Returned frames None →
  ∃ tables,
    frames = Some <$> tables ∧
    mjoin ((λ s, keyed (frameKeyOf s) ms) <$> tables) ≡ₚ ms ∧
    sum_list_with (λ s, length (fields s)) tables
    = length tables + length (ms ≫= telegraf.FieldList).
Proof.
  intros Hp Hc. apply (Convert_accepts _ _ _ _ _ Hp) in Hc.
  destruct (convertMetrics_accepts _ _ Hc) as [[css Hcss] ->].
  destruct (tablesOf_Some ms) as (tables & Htab & Hkeys & Hall).
  exists tables. split; [done|].
  assert (mjoin ((λ s, keyed (frameKeyOf s) ms) <$> tables) ≡ₚ ms) as Hperm.
  { assert ((λ s, keyed (frameKeyOf s) ms) <$> tables
            = (λ k, keyed k ms) <$> (frameKeyOf <$> tables)) as ->
      by (by rewrite <-list_fmap_compose).
    rewrite Hkeys. apply (groups_Permutation getFrameKey). }
  split; [done|].
  assert (length (ms ≫= telegraf.FieldList)
          = length (mjoin ((λ s, keyed (frameKeyOf s) ms) <$> tables)
                    ≫= telegraf.FieldList)) as ->
    by (by rewrite Hperm).
  rewrite <-sum_list_with_bind.
  clear Htab Hkeys Hperm.
  induction Hall as [|s tables (m0 & group & Hg & Heq) _ IH]; [done|].
  assert (length (fields s)
          = S (length (keyed (frameKeyOf s) ms ≫= telegraf.FieldList)))
    as Hs.
  { rewrite Hg, Heq. cbn [fields length]. f_equal. symmetry.
    eapply Forall2_length, (group_columns ms css); [done|].
    rewrite <-Hg. apply keyed_subseteq. }
  cbn [sum_list_with length]. rewrite IH, Hs. lia.
Qed.

(** X11: [extend] only appends: the key of the frame and the columns it
    already has stay as they are, one column is added for each field of the
    metric, and these columns do not depend on the frame: the metric adds
    the same columns to any other frame. *)
Theorem extend_only_appends (s s' : metricFrame) m :
  extend s m = Ok s' →
  key s' = key s ∧
  ∃ cs, fields s' = fields s ++ cs ∧
        length cs = length (telegraf.FieldList m) ∧
        ∀ s0 : metricFrame,
          extend s0 m = Ok {| key := key s0; fields := fields s0 ++ cs |}.
Proof.
  rewrite extend_columns.
  destruct (metricColumns m) as [cs| |] eqn:Hcs; simpl; [|done..].
  intros [= <-]. split; [done|]. exists cs. split; [done|]. split.
  - symmetry. by eapply Forall2_length, columns_Forall2.
  - intros s0. by rewrite extend_columns, Hcs.
Qed.

Lemma batchColumns_app ms1 ms2 :
  batchColumns (ms1 ++ ms2)
  = (css1 ←! batchColumns ms1; css2 ←! batchColumns ms2;
     Ok (css1 ++ css2)).
Proof.
  induction ms1 as [|m ms1 IH]; simpl.
  - by destruct (batchColumns ms2).
  - destruct (metricColumns m); simpl; [|done..].
    rewrite IH. destruct (batchColumns ms1); simpl; [|done..].
    by destruct (batchColumns ms2).
Qed.

Lemma keyed_app k ms1 ms2 :
  keyed k (ms1 ++ ms2) = keyed k ms1 ++ keyed k ms2.
Proof. unfold keyed. apply filter_app. Qed.

(** X12: two accepted batches that share no frame key can be converted
    together or apart: the tables of the joined batch are the tables of the
    first followed by the tables of the second. *)
Theorem convertMetrics_of_disjoint_batches ms1 ms2 frames1 frames2 :
  convertMetrics ms1 = Returned frames1 None →
  convertMetrics ms2 = Returned frames2 None →
  (∀ m1 m2, m1 ∈ ms1 → m2 ∈ ms2 → getFrameKey m1 ≠ getFrameKey m2) →
  convertMetrics (ms1 ++ ms2) = Returned (frames1 ++ frames2) None.
Proof.
  intros H1 H2 Hdisj.
  destruct (convertMetrics_accepts _ _ H1) as [[css1 Hcss1] ->].
  destruct (convertMetrics_accepts _ _ H2) as [[css2 Hcss2] ->].
  rewrite convertMetrics_tables, batchColumns_app, Hcss1, Hcss2. simpl.
  f_equal. unfold tablesOf.
  rewrite fmap_app, firstSeen_app, fmap_app. f_equal.
  - apply list_fmap_ext. intros i k Hk%list_elem_of_lookup_2.
    rewrite firstSeen_elem_of in Hk. rewrite keyed_app.
    assert (keyed k ms2 = []) as ->; [|by rewrite app_nil_r].
    apply keyed_nil_iff. intros (m2 & -> & Hm2)%list_elem_of_fmap.
    apply list_elem_of_fmap in Hk as (m1 & Heq & Hm1).
    by destruct (Hdisj m1 m2).
  - rewrite filter_all.
    + apply list_fmap_ext. intros i k Hk%list_elem_of_lookup_2.
      rewrite firstSeen_elem_of in Hk. rewrite keyed_app.
      assert (keyed k ms1 = []) as ->; [|done].
      apply keyed_nil_iff. intros (m1 & -> & Hm1)%list_elem_of_fmap.
      apply list_elem_of_fmap in Hk as (m2 & Heq & Hm2).
      by destruct (Hdisj m1 m2).
    + intros k Hk (m1 & -> & Hm1)%list_elem_of_fmap.
      rewrite firstSeen_elem_of in Hk.
      apply list_elem_of_fmap in Hk as (m2 & Heq & Hm2).
      by destruct (Hdisj m1 m2).
Qed.

(** X13: more metrics at the end of a batch leave what the batch gave
    alone.  When the longer batch is accepted so is the shorter; its tables
    come first and in the same order among those of the longer batch, each
    with the same name and with its columns as the first columns.  When the
    shorter batch is rejected the longer is rejected with the same error. *)
Theorem convertMetrics_of_a_longer_batch ms1 ms2 :
  (∀ frames,
     convertMetrics (ms1 ++ ms2) = Returned frames None →
     ∃ frames1,
       convertMetrics ms1 = Returned frames1 None ∧
       Forall2 (λ w1 w, ∃ s1 s, w1 = Some s1 ∧ w = Some s ∧
                                key s = key s1 ∧
                                fields s1 `prefix_of` fields s)
               frames1 (take (length frames1) frames)) ∧
  (∀ e, convertMetrics ms1 = Returned [] (Some e) →
        convertMetrics (ms1 ++ ms2) = Returned [] (Some e)).
Proof.
  split.
  - intros frames. rewrite !convertMetrics_tables, batchColumns_app.
    destruct (batchColumns ms1) as [css1| |]; simpl; [|done..].
    destruct (batchColumns ms2) as [css2| |]; simpl; [|done..].
    intros [= <-]. exists (tablesOf ms1). split; [done|].
    unfold tablesOf at 3.
    rewrite fmap_app, firstSeen_app, fmap_app.
    rewrite take_app_length' by (unfold tablesOf; by rewrite !length_fmap).
    unfold tablesOf. apply Forall2_fmap, Forall_Forall2_diag, Forall_forall.
    intros k Hk. rewrite firstSeen_elem_of in Hk. rewrite keyed_app.
    destruct (keyed k ms1) as [|m0 group] eqn:Hg.
    { by apply keyed_nil_iff in Hg. }
    eexists _, _. split; [done|]. split; [done|]. split; [done|].
    simpl. apply prefix_cons. rewrite fmap_app, join_app.
    rewrite (app_assoc (columnsOf m0)). by apply prefix_app_r.
  - intros e. rewrite !convertMetrics_tables, batchColumns_app.
    destruct (batchColumns ms1) as [css1|e1|]; simpl; [done| |done].
    by intros [= <-].
Qed.

(** X14: every column of an emitted table is well typed: each cell of its
    vector has the element type the column declares, the time column being
    a plain time column and every other a pointer column. *)
Theorem Convert_columns_well_typed c body p ms frames s col :
  Parse (parser c) body = (p, inr ms) →
  (Convert c body).2 = Returned frames None →
  Some s ∈ frames → col ∈ fields s →
  Forall (λ cell, data.elemType cell = data.Type_ col) (data.vector col) ∧
  (col ∈ tail (fields s) → data.Nullable (data.Type_ col) = true) ∧
  (head (fields s) = Some col → data.Type_ col = data.FieldTypeTime).
Proof.
  intros Hp Hc Hs Hcol.
  destruct (accepted_table _ _ _ _ _ _ Hp Hc Hs)
    as (s' & m0 & rest & [= <-] & _ & _ & _ & Hfields & Hall).
  assert (∀ col', col' ∈ rest →
            ∃ k ptr, data.Type_ col' = data.Nullable_ k ∧
                     data.vector col' = [data.Ptr k ptr]) as Hrest.
  { intros col' [i Hi]%list_elem_of_lookup.
    destruct (Forall2_lookup_r _ _ _ _ _ Hall Hi)
      as (f & _ & m & _ & _ & Hfc).
    apply fieldColumn_inv in Hfc as (k & ptr & _ & _ & ->). eauto. }
  rewrite Hfields in *. simpl. split; [|split].
  - apply elem_of_cons in Hcol as [->|Hcol].
    + by repeat constructor.
    + destruct (Hrest col Hcol) as (k & ptr & -> & ->). by repeat constructor.
  - intros Hin. by destruct (Hrest col Hin) as (k & ptr & -> & _).
  - by intros [= <-].
Qed.

End Further.

(** ** The further properties at the sample batches *)

Lemma run_tempInt_diskUnsigned :
  run [tempInt; diskUnsigned]
  = Returned [] (Some (ErrNoConverter "used" (telegraf.VUint64 10)
                                      (data.Nullable_ data.Uint64))).
Proof. vm_compute. reflexivity. Qed.

Lemma Convert_accepts_iff_all_fields_convert_witness :
  run [tempInt; tempFloat] = Returned [Some tempTable] None ∧
  ((∃ frames, run [tempInt; tempFloat] = Returned frames None) ↔
   (∀ m f, m ∈ [tempInt; tempFloat] → f ∈ telegraf.FieldList m →
           ∃ col, @fieldColumn (decoding [tempInt; tempFloat]) m f = Ok col)).
Proof.
  split; [exact run_tempInt_tempFloat|].
  apply (Convert_accepts_iff_all_fields_convert
           (X := decoding [tempInt; tempFloat]) NewConverter [] 1).
  reflexivity.
Defined.

Lemma Convert_error_excludes_tables_witness :
  ([] : list FrameWrapper) = [] ∧
  ((∃ cause,
      (@Parse (decoding [tempInt; diskUnsigned]) 0 []).2 = inl cause ∧
      ErrNoConverter "used" (telegraf.VUint64 10)
                     (data.Nullable_ data.Uint64) = ErrParse cause) ∨
   (∃ ms m f,
      (@Parse (decoding [tempInt; diskUnsigned]) 0 []).2 = inr ms ∧
      m ∈ ms ∧ f ∈ telegraf.FieldList m ∧
      @fieldColumn (decoding [tempInt; diskUnsigned]) m f
      = Err (ErrNoConverter "used" (telegraf.VUint64 10)
                            (data.Nullable_ data.Uint64)) ∧
      isConversionError (ErrNoConverter "used" (telegraf.VUint64 10)
                                        (data.Nullable_ data.Uint64))
      = true)).
Proof.
  apply (Convert_error_excludes_tables
           (X := decoding [tempInt; diskUnsigned]) NewConverter []).
  exact run_tempInt_diskUnsigned.
Defined.

Lemma Convert_table_count_witness :
  ∃ tables,
    [Some tempTable; Some tempLaterTable] = Some <$> tables ∧
    NoDup (@frameKeyOf (decoding [tempInt; tempFloat; tempLater])
             <$> tables) ∧
    length tables
    = length (firstSeen
                (@getFrameKey (decoding [tempInt; tempFloat; tempLater])
                   <$> [tempInt; tempFloat; tempLater])) ∧
    length tables ≤ length [tempInt; tempFloat; tempLater] ∧
    (tables = [] ↔ [tempInt; tempFloat; tempLater] = []).
Proof.
  apply (Convert_table_count
           (X := decoding [tempInt; tempFloat; tempLater]) NewConverter [] 1).
  - reflexivity.
  - exact run_three.
Defined.

Lemma Convert_fails_at_first_failing_field_witness :
  ∃ pre m post fpre f fpost,
    [tempInt; diskUnsigned] = pre ++ m :: post ∧
    telegraf.FieldList m = fpre ++ f :: fpost ∧
    (∀ m' f', m' ∈ pre → f' ∈ telegraf.FieldList m' →
       ∃ col, @fieldColumn (decoding [tempInt; diskUnsigned]) m' f'
              = Ok col) ∧
    (∀ f', f' ∈ fpre →
       ∃ col, @fieldColumn (decoding [tempInt; diskUnsigned]) m f'
              = Ok col) ∧
    @fieldColumn (decoding [tempInt; diskUnsigned]) m f
    = Err (ErrNoConverter "used" (telegraf.VUint64 10)
                          (data.Nullable_ data.Uint64)).
Proof.
  apply (Convert_fails_at_first_failing_field
           (X := decoding [tempInt; diskUnsigned]) NewConverter [] 1
           [tempInt; diskUnsigned] []).
  - reflexivity.
  - exact run_tempInt_diskUnsigned.
Defined.

Lemma Convert_table_named_after_first_metric_witness :
  ∃ s pre m0 post,
    Some tempLaterTable = Some s ∧
    [tempInt; tempFloat; tempLater] = pre ++ m0 :: post ∧
    Forall (λ m, @getFrameKey (decoding [tempInt; tempFloat; tempLater]) m
                 ≠ @frameKeyOf (decoding [tempInt; tempFloat; tempLater]) s)
           pre ∧
    @getFrameKey (decoding [tempInt; tempFloat; tempLater]) m0
    = @frameKeyOf (decoding [tempInt; tempFloat; tempLater]) s ∧
    Key s = telegraf.Name m0 ∧
    FrameName (Frame_ s) = telegraf.Name m0 ∧
    Fields (Frame_ s) = fields s ∧
    head (Fields (Frame_ s))
    = Some (data.NewTimeField "time" ∅ [telegraf.Time m0]).
Proof.
  apply (Convert_table_named_after_first_metric
           (X := decoding [tempInt; tempFloat; tempLater]) NewConverter [] 1
           [tempInt; tempFloat; tempLater]
           [Some tempTable; Some tempLaterTable]).
  - reflexivity.
  - exact run_three.
  - right. left.
Defined.

Lemma Convert_columns_labelled_with_tags_witness :
  ∃ s timeField rest,
    Some cpuTable = Some s ∧ fields s = timeField :: rest ∧
    data.Labels timeField = ∅ ∧
    data.Labels <$> rest
    = @keyed (decoding [cpu0; cpu1])
             (@frameKeyOf (decoding [cpu0; cpu1]) s) [cpu0; cpu1]
      ≫= (λ m, replicate (length (telegraf.FieldList m)) (telegraf.Tags m)).
Proof.
  apply (Convert_columns_labelled_with_tags
           (X := decoding [cpu0; cpu1]) NewConverter [] 1
           [cpu0; cpu1] [Some cpuTable]).
  - reflexivity.
  - exact run_cpu0_cpu1.
  - left.
Defined.

Lemma Convert_cells_are_converter_results_witness :
  ∃ m f,
    m ∈ [tempInt; tempFloat] ∧ f ∈ telegraf.FieldList m ∧
    "x" = telegraf.Key f ∧
    ((∃ r, testToString (telegraf.Value_ f) = inr r ∧
           data.Nullable_ data.Float64 = data.FieldTypeNullableString ∧
           [data.Ptr data.Float64 (Some (data.SFloat 4.5))]
           = [data.Ptr data.String_ (data.SString <$> r)]) ∨
     (∃ r, testToFloat64 (telegraf.Value_ f) = inr r ∧
           data.Nullable_ data.Float64 = data.FieldTypeNullableFloat64 ∧
           [data.Ptr data.Float64 (Some (data.SFloat 4.5))]
           = [data.Ptr data.Float64 (data.SFloat <$> r)]) ∨
     (∃ r, testToBool (telegraf.Value_ f) = inr r ∧
           data.Nullable_ data.Float64 = data.FieldTypeNullableBool ∧
           [data.Ptr data.Float64 (Some (data.SFloat 4.5))]
           = [data.Ptr data.Bool (data.SBool <$> r)]) ∨
     (∃ r, testToInt64 (telegraf.Value_ f) = inr r ∧
           data.Nullable_ data.Float64 = data.FieldTypeNullableInt64 ∧
           [data.Ptr data.Float64 (Some (data.SFloat 4.5))]
           = [data.Ptr data.Int64 (data.SInt <$> r)])).
Proof.
  apply (Convert_cells_are_converter_results
           (X := decoding [tempInt; tempFloat]) NewConverter [] 1
           [tempInt; tempFloat] [Some tempTable] tempTable
           (column "x" [("host", "a")] data.Float64 (data.SFloat 4.5))).
  - reflexivity.
  - exact run_tempInt_tempFloat.
  - left.
  - right. left.
Defined.

Lemma Convert_rejects_unsupported_types_witness :
  (@fieldColumn (decoding [tempInt; diskUnsigned]) diskUnsigned
                (field "used" (telegraf.VUint64 10))
   = Err (ErrUnknownType (telegraf.VUint64 10)) ∨
   ∃ k, @fieldColumn (decoding [tempInt; diskUnsigned]) diskUnsigned
                     (field "used" (telegraf.VUint64 10))
        = Err (ErrNoConverter "used" (telegraf.VUint64 10)
                              (data.Nullable_ k))) ∧
  ∃ e, run [tempInt; diskUnsigned] = Returned [] (Some e).
Proof.
  apply (Convert_rejects_unsupported_types
           (X := decoding [tempInt; diskUnsigned]) NewConverter [] 1
           [tempInt; diskUnsigned] diskUnsigned
           (field "used" (telegraf.VUint64 10))).
  - reflexivity.
  - right. left.
  - left.
  - right. exists data.Uint64. split; [reflexivity|].
    rewrite !not_elem_of_cons. repeat split; try discriminate.
    apply not_elem_of_nil.
Defined.

Lemma Convert_tables_partition_the_batch_witness :
  ∃ tables,
    [Some tempTable; Some tempLaterTable] = Some <$> tables ∧
    mjoin ((λ s, @keyed (decoding [tempInt; tempFloat; tempLater])
                   (@frameKeyOf (decoding [tempInt; tempFloat; tempLater]) s)
                   [tempInt; tempFloat; tempLater]) <$> tables)
    ≡ₚ [tempInt; tempFloat; tempLater] ∧
    sum_list_with (λ s, length (fields s)) tables
    = length tables
      + length ([tempInt; tempFloat; tempLater] ≫= telegraf.FieldList).
Proof.
  apply (Convert_tables_partition_the_batch
           (X := decoding [tempInt; tempFloat; tempLater]) NewConverter [] 1).
  - reflexivity.
  - exact run_three.
Defined.

Lemma extend_only_appends_witness :
  key tempTable = "temp" ∧
  ∃ cs, fields tempTable
        = [timeColumn 1000;
           column "x" [("host", "a")] data.Int64 (data.SInt 3)] ++ cs ∧
        length cs = length (telegraf.FieldList tempFloat) ∧
        ∀ s0 : metricFrame,
          @extend (decoding []) s0 tempFloat
          = Ok {| key := key s0; fields := fields s0 ++ cs |}.
Proof.
  apply (extend_only_appends (X := decoding [])
           {| key := "temp";
              fields := [timeColumn 1000;
                         column "x" [("host", "a")] data.Int64
                                (data.SInt 3)] |}
           tempTable tempFloat).
  vm_compute. reflexivity.
Defined.

Lemma convertMetrics_of_disjoint_batches_witness :
  @convertMetrics (decoding []) ([tempInt; tempFloat] ++ [tempLater])
  = Returned ([Some tempTable] ++ [Some tempLaterTable]) None.
Proof.
  apply (convertMetrics_of_disjoint_batches (X := decoding [])).
  - vm_compute. reflexivity.
  - vm_compute. reflexivity.
  - intros m1 m2 [->|[->|[]%elem_of_nil]%elem_of_cons]%elem_of_cons
                 [->|[]%elem_of_nil]%elem_of_cons; by vm_compute.
Defined.

Lemma convertMetrics_of_a_longer_batch_witness :
  (∃ frames1,
     @convertMetrics (decoding []) [tempInt] = Returned frames1 None ∧
     Forall2 (λ w1 w, ∃ s1 s, w1 = Some s1 ∧ w = Some s ∧
                              key s = key s1 ∧
                              fields s1 `prefix_of` fields s)
             frames1
             (take (length frames1) [Some tempTable; Some tempLaterTable])) ∧
  @convertMetrics (decoding []) ([diskUnsigned] ++ [tempInt])
  = Returned [] (Some (ErrNoConverter "used" (telegraf.VUint64 10)
                                      (data.Nullable_ data.Uint64))).
Proof.
  split.
  - apply (proj1 (convertMetrics_of_a_longer_batch (X := decoding [])
                    [tempInt] [tempFloat; tempLater])).
    vm_compute. reflexivity.
  - apply (proj2 (convertMetrics_of_a_longer_batch (X := decoding [])
                    [diskUnsigned] [tempInt])).
    vm_compute. reflexivity.
Defined.

Lemma Convert_columns_well_typed_witness :
  Forall (λ cell, data.elemType cell = data.FieldTypeNullableFloat64)
         [data.Ptr data.Float64 (Some (data.SFloat 99.5))] ∧
  (column "usage_idle" [("cpu", "cpu0")] data.Float64 (data.SFloat 99.5)
     ∈ tail (fields cpuTable) →
   data.Nullable data.FieldTypeNullableFloat64 = true) ∧
  (head (fields cpuTable)
   = Some (column "usage_idle" [("cpu", "cpu0")] data.Float64
                  (data.SFloat 99.5)) →
   data.FieldTypeNullableFloat64 = data.FieldTypeTime).
Proof.
  apply (Convert_columns_well_typed
           (X := decoding [cpu0; cpu1]) NewConverter [] 1
           [cpu0; cpu1] [Some cpuTable] cpuTable
           (column "usage_idle" [("cpu", "cpu0")] data.Float64
                   (data.SFloat 99.5))).
  - reflexivity.
  - exact run_cpu0_cpu1.
  - left.
  - right. left.
Defined.
